(** * polarion/testrun.py: the Testrun mirror, its record index and save()

    A shallow embedding of [class Testrun] and the properties of its
    construction, reload, lookup and reconciliation code.

    Python objects are modelled as follows.
    - Values received from the service (zeep compound values, strings,
      booleans, ...) are terms of [Val]; a zeep object is [VObj values], the
      ordered items of its [__values__] dictionary.
    - The Testrun instance is the record [Testrun]: attributes assigned under a
      fixed name in the source are fields, attributes whose name is computed
      at run time ([setattr(self, key, ...)]) live in the map [attrs].  The
      element names of the service's TestRun type are disjoint from the
      private names of the class, so the two never meet.
    - Statements run in the monad [M]: a state with the instance, the log of
      calls made to the collaborator and the file system, and a result that
      is a value or a raised exception.  A raised exception keeps the state
      reached so far, as in Python. *)

From Stdlib Require Import ZArith Ascii.
From stdpp Require Import base strings list gmap.

Local Open Scope string_scope.
Local Open Scope list_scope.

(** ** Values

    The values the service hands out: null, booleans, integers, strings,
    lists and service objects.  Floating-point numbers are left out. *)

#[warnings="-register-all"]
Inductive Val :=
| VNone
| VBool (b : bool)
| VInt (n : Z)
| VStr (s : string)
| VList (items : list Val)
| VObj (values : list (string * Val)).

(** [a == b].  A number equals a boolean of the same numeric value; lists are
    equal elementwise; two service objects are equal when their items are
    (objects of one type hold their items in the order of the schema). *)
Fixpoint py_eq (a b : Val) {struct a} : bool :=
  match a, b with
  | VNone, VNone => true
  | VBool x, VBool y => bool_decide (x = y)
  | VBool x, VInt y => bool_decide (Z.b2z x = y)
  | VInt x, VBool y => bool_decide (x = Z.b2z y)
  | VInt x, VInt y => bool_decide (x = y)
  | VStr x, VStr y => bool_decide (x = y)
  | VList xs, VList ys =>
      (fix all2 (xs ys : list Val) {struct xs} : bool :=
         match xs, ys with
         | [], [] => true
         | x :: xs', y :: ys' => py_eq x y && all2 xs' ys'
         | _, _ => false
         end) xs ys
  | VObj xs, VObj ys =>
      (fix all2 (xs ys : list (string * Val)) {struct xs} : bool :=
         match xs, ys with
         | [], [] => true
         | (k, x) :: xs', (k', y) :: ys' =>
             bool_decide (k = k') && py_eq x y && all2 xs' ys'
         | _, _ => false
         end) xs ys
  | _, _ => false
  end.

(** [a != b] *)
Definition py_ne (a b : Val) : bool := negb (py_eq a b).

(** Truth value of [v], as tested by [not v]. *)
Definition truthy (v : Val) : bool :=
  match v with
  | VNone => false
  | VBool b => b
  | VInt n => bool_decide (n ≠ 0%Z)
  | VStr s => bool_decide (s ≠ "")
  | VList items => bool_decide (items ≠ [])
  | VObj values => bool_decide (values ≠ [])
  end.

(** [copy.deepcopy]: values are immutable terms, the copy is the value. *)
Definition deepcopy (v : Val) : Val := v.

(** [values[key]] on the items of a dictionary; a key occurs once in a
    dictionary, and the binding read is the one a dictionary built from the
    items in order would hold. *)
Fixpoint values_get (values : list (string * Val)) (key : string) : option Val :=
  match values with
  | [] => None
  | (k, v) :: rest =>
      match values_get rest key with
      | Some w => Some w
      | None => if bool_decide (k = key) then Some v else None
      end
  end.

(** ** Exceptions *)

Inductive Exn :=
| CannotFindTestRun (uri : Val)     (* Exception(f'Cannot find test run {uri}') *)
| ProvideEither                     (* Exception('Provide either an uri or polarion_test_run ') *)
| NotRetrieved                      (* Exception('Testrun not retrieved from Polarion') *)
| IterationMustBePositive           (* Exception('Test case iteration must be positive.') *)
| CouldNotDownload (file_name : string) (* Exception(f'Could not download attachment {file_name}') *)
| AttributeError (name : string)
| KeyError (key : string)
| IndexError
| TypeError
| FileNotFoundError (path : string)
| Fault.                            (* raised inside the collaborator *)

Inductive Result (A : Type) :=
| Ok (a : A)
| Raise (e : Exn).
Arguments Ok {A} a.
Arguments Raise {A} e.

(** [getattr(o, name)] on a received value. *)
Definition getattr (o : Val) (name : string) : Result Val :=
  match o with
  | VObj values =>
      match values_get values name with
      | Some v => Ok v
      | None => Raise (AttributeError name)
      end
  | _ => Raise (AttributeError name)
  end.

(** [o.__dict__.items()]: a zeep object holds the single entry [__values__]. *)
Definition dict_items (o : Val) : Result (list (string * list (string * Val))) :=
  match o with
  | VObj values => Ok [("__values__", values)]
  | _ => Raise (AttributeError "__dict__")
  end.

(** The elements visited by [for x in v]. *)
Definition py_iter (v : Val) : Result (list Val) :=
  match v with
  | VList items => Ok items
  | VStr s => Ok ((λ c, VStr (String c "")) <$> String.list_ascii_of_string s)
  | VObj values => Ok ((λ kv, VStr kv.1) <$> values)
  | _ => Raise TypeError
  end.

(** [s.split(sep)] for a one-character separator. *)
Fixpoint split (sep : Ascii.ascii) (s : string) : list string :=
  match s with
  | "" => [""]
  | String c rest =>
      if bool_decide (c = sep) then "" :: split sep rest
      else match split sep rest with
           | hd :: tl => String c hd :: tl
           | [] => [String c ""]
           end
  end.

(** [os.path.split(file_path)[1]] (POSIX paths). *)
Definition path_tail (file_path : string) : string :=
  List.last (split "/"%char file_path) "".

(** ** The collaborator and the objects exchanged with it *)

(** [self._polarion.ParameterType(name, value)] *)
Record ParameterType := mkParameterType {
  p_name : string;
  p_value : Val }.

(** [self._polarion.TestRecordType(testCaseURI=..., testCaseRevision=...,
    testParameters=...)]; the revision is optional. *)
Record TestRecordType := mkTestRecordType {
  testCaseURI : string;
  testCaseRevision : option string;
  testParameters : list ParameterType }.

(** The requests the class sends: the methods of the TestManagement service
    and [downloadFromSvn] of the client. *)
Inductive Call :=
| GetTestRunByUri (uri : Val)
| GetTestRunAttachment (uri : Val) (file_name : string)
| DownloadFromSvn (url : Val)
| DeleteTestRunAttachment (uri : Val) (file_name : string)
| AddAttachmentToTestRun (uri : Val) (file_name title content : string)
| UpdateTestRunAttachment (uri : Val) (file_name title content : string)
| GetTestCaseParameterNames (uri : string)
| AddTestRecordToTestRun (uri : Val) (new_record : TestRecordType)
| UpdateTestRun (updated_item : gmap string Val).

(** The client object [polarion].  Its answers may depend on the requests
    made before; [None] (or [accepts = false] for a request that returns
    nothing) stands for a request that raises. *)
Record Polarion := mkPolarion {
  getTestRunByUri : list Call → Val → option Val;
  getTestRunAttachment : list Call → Val → string → option Val;
  downloadFromSvn : list Call → Val → option string;
  getTestCaseParameterNames : list Call → string → option (list string);
  accepts : list Call → Call → bool }.

(** The work item handed to [addTestcase]; only its [uri] is read. *)
Record Workitem := mkWorkitem { w_uri : string }.

(** An element of [test_parameters]: [{'name': ..., 'value': ...}]. *)
Record TestParameter := mkTestParameter {
  tp_name : string;
  tp_value : Val }.

(** Modelled from the spec: the class [Record] of polarion/record.py, which
    is not among the sources.  A sub-record mirror wraps one raw sub-record,
    carries its position in the parent's sequence and exposes the business
    key [testcase_id]. *)
Record Record_ := mkRecord {
  _polarion_record : Val;
  _index : nat;
  testcase_id : string }.

(** What the file imports from modules that are not among the sources: the
    attributes the initialiser of the base class [Comments] leaves on the
    object for a given [uri], and the business key that [Record] derives from
    a raw sub-record. *)
Class Imports := mkImports {
  Comments__init__ : Val → gmap string Val;
  Record_testcase_id : Val → string }.

(** ** The instance and the state *)

Record Testrun := mkTestrun {
  _polarion : Polarion;
  attrs : gmap string Val;
  _polarion_test_run : Val;
  _original_polarion_test_run : Val;
  _records : option Val;          (* [None]: the attribute is not set *)
  records : list Record_;
  _record_dict : gmap string (list Record_) }.

Record World := mkWorld {
  self : Testrun;
  calls : list Call;
  files : gmap string string }.

Definition set_attrs (f : gmap string Val → gmap string Val) (t : Testrun) : Testrun :=
  mkTestrun (_polarion t) (f (attrs t)) (_polarion_test_run t)
    (_original_polarion_test_run t) (_records t) (records t) (_record_dict t).
Definition set_polarion_test_run (v : Val) (t : Testrun) : Testrun :=
  mkTestrun (_polarion t) (attrs t) v
    (_original_polarion_test_run t) (_records t) (records t) (_record_dict t).
Definition set_original_polarion_test_run (v : Val) (t : Testrun) : Testrun :=
  mkTestrun (_polarion t) (attrs t) (_polarion_test_run t)
    v (_records t) (records t) (_record_dict t).
Definition set__records (v : Val) (t : Testrun) : Testrun :=
  mkTestrun (_polarion t) (attrs t) (_polarion_test_run t)
    (_original_polarion_test_run t) (Some v) (records t) (_record_dict t).
Definition set_records (f : list Record_ → list Record_) (t : Testrun) : Testrun :=
  mkTestrun (_polarion t) (attrs t) (_polarion_test_run t)
    (_original_polarion_test_run t) (_records t) (f (records t)) (_record_dict t).
Definition set_record_dict
    (f : gmap string (list Record_) → gmap string (list Record_)) (t : Testrun) : Testrun :=
  mkTestrun (_polarion t) (attrs t) (_polarion_test_run t)
    (_original_polarion_test_run t) (_records t) (records t) (f (_record_dict t)).

(** ** The monad of statements *)

Definition M (A : Type) : Type := World → Result A * World.

Definition ret {A} (a : A) : M A := λ w, (Ok a, w).
Definition raise {A} (e : Exn) : M A := λ w, (Raise e, w).
Definition lift {A} (r : Result A) : M A := λ w, (r, w).
Definition bind {A B} (c : M A) (k : A → M B) : M B :=
  λ w, match c w with
       | (Ok a, w') => k a w'
       | (Raise e, w') => (Raise e, w')
       end.

Notation "'let*' x ':=' c 'in' k" := (bind c (λ x, k))
  (at level 10, x pattern, c at level 100, k at level 200).

(** [try: c  except Exception: h] *)
Definition try_except {A} (c : M A) (h : Exn → M A) : M A :=
  λ w, match c w with
       | (Ok a, w') => (Ok a, w')
       | (Raise e, w') => h e w'
       end.

Definition get_self : M Testrun := λ w, (Ok (self w), w).
Definition modify_self (f : Testrun → Testrun) : M unit :=
  λ w, (Ok tt, mkWorld (f (self w)) (calls w) (files w)).

(** [for x in l: acc = body(acc, x)] *)
Fixpoint fold_each {A S} (l : list A) (body : S → A → M S) (acc : S) : M S :=
  match l with
  | [] => ret acc
  | x :: l' => let* acc' := body acc x in fold_each l' body acc'
  end.

(** [for x in l: body(x)] *)
Definition for_each {A} (l : list A) (body : A → M unit) : M unit :=
  fold_each l (λ _ x, body x) tt.

(** [self.name] for a name in the open attribute namespace. *)
Definition self_attr (name : string) : M Val :=
  let* t := get_self in
  match attrs t !! name with
  | Some v => ret v
  | None => raise (AttributeError name)
  end.

(** The state once request [c] has been sent. *)
Definition sent (c : Call) (w : World) : World :=
  mkWorld (self w) (calls w ++ [c]) (files w).

(** A request to the collaborator: it is logged, then answered or raises. *)
Definition remote {A} (c : Call) (answer : Polarion → list Call → option A) : M A :=
  λ w, let w' := sent c w in
       match answer (_polarion (self w)) (calls w) with
       | Some a => (Ok a, w')
       | None => (Raise Fault, w')
       end.

(** A request that returns nothing. *)
Definition remote_ (c : Call) : M unit :=
  remote c (λ p h, if accepts p h c then Some tt else None).

(** [with open(file_path, "rb") as f: ... f.read()] *)
Definition read_file (file_path : string) : M string :=
  λ w, match files w !! file_path with
       | Some content => (Ok content, w)
       | None => (Raise (FileNotFoundError file_path), w)
       end.

(** ** class Testrun *)

Section Testrun.
Context `{Imports}.

(** [Record(self._polarion, self, r, index)] *)
Definition Record__init__ (r : Val) (index : nat) : Record_ :=
  mkRecord r index (Record_testcase_id r).

(** The body of the loop over [enumerate(self._records.TestRecord)]. *)
Definition add_record (t : Testrun) (new_record : Record_) : Testrun :=
  let t' := set_records (λ rs, rs ++ [new_record]) t in
  match _record_dict t' !! testcase_id new_record with
  | None => set_record_dict <[testcase_id new_record := [new_record]]> t'
  | Some l => set_record_dict <[testcase_id new_record := l ++ [new_record]]> t'
  end.

(** [enumerate(l)] *)
Definition enumerate {A} (l : list A) : list (nat * A) := imap (λ i x, (i, x)) l.

(** The body of the two loops over the snapshot's items. *)
Definition flatten_key (kv : string * Val) : M unit :=
  let '(key, v) := kv in
  if bool_decide (key = "records") then modify_self (set__records v)
  else modify_self (set_attrs <[key := v]>).

Definition _buildWorkitemFromPolarion : M unit :=
  let* t := get_self in
  let* resolved :=
    match _polarion_test_run t with
    | VNone => ret false
    | o => let* unresolvable := lift (getattr o "unresolvable") in
           ret (negb (truthy unresolvable))
    end in
  if resolved : bool then
    let* items := lift (dict_items (_polarion_test_run t)) in
    let* _ := for_each items (λ '(attr, value), for_each value flatten_key) in
    let* _ := modify_self (set_records (λ _, [])) in
    let* _ := modify_self (set_record_dict (λ _, ∅)) in
    let* t := get_self in
    match _records t with
    | None => raise (AttributeError "_records")
    | Some VNone => ret tt
    | Some recs =>
        let* test_record := lift (getattr recs "TestRecord") in
        let* rs := lift (py_iter test_record) in
        for_each (enumerate rs) (λ '(index, r),
          modify_self (λ t, add_record t (Record__init__ r index)))
    end
  else raise NotRetrieved.

Definition _reloadFromPolarion : M unit :=
  let* uri := self_attr "uri" in
  let* fetched := remote (GetTestRunByUri uri) (λ p h, getTestRunByUri p h uri) in
  let* _ := modify_self (set_polarion_test_run fetched) in
  let* _ := _buildWorkitemFromPolarion in
  let* t := get_self in
  modify_self (set_original_polarion_test_run (deepcopy (_polarion_test_run t))).

(** [Testrun.__init__(self, polarion, uri, polarion_test_run)], run on the
    freshly allocated object; [VNone] is the default of both arguments. *)
Definition __init__ (polarion : Polarion) (uri polarion_test_run : Val) : M unit :=
  let* _ := modify_self (λ t,
    mkTestrun polarion (Comments__init__ uri ∪ attrs t) (_polarion_test_run t)
      (_original_polarion_test_run t) (_records t) (records t) (_record_dict t)) in
  let* _ :=
    match uri, polarion_test_run with
    | VNone, VNone => raise ProvideEither
    | VNone, _ => modify_self (set_polarion_test_run polarion_test_run)
    | _, _ =>
        try_except
          (let* fetched := remote (GetTestRunByUri uri) (λ p h, getTestRunByUri p h uri) in
           modify_self (set_polarion_test_run fetched))
          (λ _, raise (CannotFindTestRun uri))
    end in
  let* t := get_self in
  let* _ := modify_self (set_original_polarion_test_run (deepcopy (_polarion_test_run t))) in
  _buildWorkitemFromPolarion.

(** The object before [__init__] runs: no attribute is set. *)
Definition blank (polarion : Polarion) : Testrun :=
  mkTestrun polarion ∅ VNone VNone None [] ∅.

(** [Testrun(polarion, uri, polarion_test_run)] in a world with the given
    request log and files: the result of [__init__] on the blank object. *)
Definition Testrun_new (polarion : Polarion) (uri polarion_test_run : Val)
    (log : list Call) (fs : gmap string string) : Result unit * World :=
  __init__ polarion uri polarion_test_run (mkWorld (blank polarion) log fs).

Definition hasTestCase (id : string) : M bool :=
  let* t := get_self in
  if bool_decide (is_Some (_record_dict t !! id)) then ret true else ret false.

Definition getTestCase (id : string) (iteration : Z) : M (option Record_) :=
  if bool_decide (iteration < 0)%Z then raise IterationMustBePositive
  else
    let* has := hasTestCase id in
    if has : bool then
      let* t := get_self in
      match _record_dict t !! id with
      | None => raise (KeyError id)
      | Some l =>
          match l !! Z.to_nat iteration with
          | Some r => ret (Some r)
          | None => raise IndexError
          end
      end
    else ret None.

(** [getTestCase(id)]: [iteration] defaults to 0. *)
Definition getTestCase_default (id : string) : M (option Record_) :=
  getTestCase id 0.


Definition getAttachment (file_name : string) : M string :=
  let* uri := self_attr "uri" in
  let* at_ := remote (GetTestRunAttachment uri file_name)
                (λ p h, getTestRunAttachment p h uri file_name) in
  match at_ with
  | VNone => raise (CouldNotDownload file_name)
  | _ => let* url := lift (getattr at_ "url") in
         remote (DownloadFromSvn url) (λ p h, downloadFromSvn p h url)
  end.

Definition deleteAttachment (file_name : string) : M unit :=
  let* uri := self_attr "uri" in
  let* _ := remote_ (DeleteTestRunAttachment uri file_name) in
  _reloadFromPolarion.

Definition addAttachment (file_path title : string) : M unit :=
  let file_name := path_tail file_path in
  let* content := read_file file_path in
  let* uri := self_attr "uri" in
  let* _ := remote_ (AddAttachmentToTestRun uri file_name title content) in
  _reloadFromPolarion.

(** The body of the loop over [test_case_parameter_names]:
    [test_parameters_list] after visiting one name. *)
Definition add_parameter (test_parameters_dict : gmap string Val)
    (test_parameters_list : list ParameterType) (test_case_parameter_name : string)
    : M (list ParameterType) :=
  if bool_decide (is_Some (test_parameters_dict !! test_case_parameter_name)) then
    match test_parameters_dict !! "test_case_parameter_name" with
    | Some v => ret (test_parameters_list ++ [mkParameterType test_case_parameter_name v])
    | None => raise (KeyError "test_case_parameter_name")
    end
  else ret (test_parameters_list
            ++ [mkParameterType test_case_parameter_name (VStr "not specified")]).

Definition addTestcase (workitem : Workitem) (test_parameters : list TestParameter) : M unit :=
  let test_parameters_dict : gmap string Val :=
    foldl (λ d p, <[tp_name p := tp_value p]> d) ∅ test_parameters in
  let* test_case_parameter_names :=
    remote (GetTestCaseParameterNames (w_uri workitem))
      (λ p h, getTestCaseParameterNames p h (w_uri workitem)) in
  let* test_parameters_list :=
    fold_each test_case_parameter_names (add_parameter test_parameters_dict) [] in
  let testCaseUriAndRevision := split "%"%char (w_uri workitem) in
  let new_record :=
    match testCaseUriAndRevision with
    | u :: r :: _ => mkTestRecordType u (Some r) test_parameters_list
    | u :: [] => mkTestRecordType u None test_parameters_list
    | [] => mkTestRecordType "" None test_parameters_list   (* split never returns [] *)
    end in
  let* uri := self_attr "uri" in
  let* _ := remote_ (AddTestRecordToTestRun uri new_record) in
  _reloadFromPolarion.

Definition updateAttachment (file_path title : string) : M unit :=
  let file_name := path_tail file_path in
  let* content := read_file file_path in
  let* uri := self_attr "uri" in
  let* _ := remote_ (UpdateTestRunAttachment uri file_name title content) in
  _reloadFromPolarion.

(** The body of the two loops of [save]: [updated_item] after visiting [key]. *)
Definition stage_key (updated_item : gmap string Val) (kv : string * Val)
    : M (gmap string Val) :=
  let key := kv.1 in
  if bool_decide (key ∈ ["records"]) then ret updated_item
  else
    let* current_value := self_attr key in
    let* t := get_self in
    let* prev_value := lift (getattr (_original_polarion_test_run t) key) in
    if py_ne current_value prev_value then ret (<[key := current_value]> updated_item)
    else ret updated_item.

(** The payload [updated_item] computed by the loops of [save]. *)
Definition staged : M (gmap string Val) :=
  let* t := get_self in
  let* items := lift (dict_items (_polarion_test_run t)) in
  fold_each items (λ updated_item '(attr, value),
    fold_each value stage_key updated_item) ∅.

Definition save : M unit :=
  let* updated_item := staged in
  if bool_decide (0 < size updated_item) then
    let* uri := self_attr "uri" in
    let updated_item := <["uri" := uri]> updated_item in
    let* _ := remote_ (UpdateTestRun updated_item) in
    _reloadFromPolarion
  else ret tt.

End Testrun.

(** ** Auxiliary notions used in the statements *)

(** The snapshot is null or marked unresolvable. *)
Definition unresolved (snapshot : Val) : Prop :=
  snapshot = VNone ∨ ∃ u, getattr snapshot "unresolvable" = Ok u ∧ truthy u = true.

(** The instance after the two flatten loops have run over [values]. *)
Definition flattened (values : list (string * Val)) (t : Testrun) : Testrun :=
  foldl (λ t kv, if bool_decide (kv.1 = "records") then set__records kv.2 t
                 else set_attrs <[kv.1 := kv.2]> t) t values.

(** The mirrors built from the raw sub-records [rs], in order. *)
Definition mirrors `{Imports} (rs : list Val) : list Record_ :=
  imap (λ index r, Record__init__ r index) rs.

(** The mirrors of [l] whose business key is [id]. *)
Definition with_key (id : string) (l : list Record_) : list Record_ :=
  filter (λ r, testcase_id r = id) l.

(** [test_parameters_dict] of [addTestcase]. *)
Definition parameters_dict (test_parameters : list TestParameter) : gmap string Val :=
  foldl (λ d p, <[tp_name p := tp_value p]> d) ∅ test_parameters.


(** [new_record] of [addTestcase]. *)
Definition new_test_record (workitem : Workitem) (ps : list ParameterType) : TestRecordType :=
  match split "%"%char (w_uri workitem) with
  | u :: r :: _ => mkTestRecordType u (Some r) ps
  | u :: [] => mkTestRecordType u None ps
  | [] => mkTestRecordType "" None ps
  end.

(** [sat R E c]: from every state [c] ends in a state related to the start by
    [R], and an exception it raises satisfies [E]. *)
Definition sat (R : relation World) (E : Exn → Prop) {A} (c : M A) : Prop :=
  ∀ w, R w (c w).2 ∧ ∀ e, (c w).1 = Raise e → E e.

(** Everything but the instance's own attributes, index and records is the
    same in both states. *)
Definition same_environment (w w' : World) : Prop :=
  calls w' = calls w ∧ files w' = files w
  ∧ _polarion (self w') = _polarion (self w)
  ∧ _polarion_test_run (self w') = _polarion_test_run (self w)
  ∧ _original_polarion_test_run (self w') = _original_polarion_test_run (self w).

(** [records] and [_record_dict] emptied. *)
Definition cleared (t : Testrun) : Testrun :=
  set_record_dict (λ _, ∅) (set_records (λ _, []) t).

(** The part of the rebuild that follows the flatten loops and the reset of
    [records] and [_record_dict]. *)
Definition records_part `{Imports} : M unit :=
  let* t := get_self in
  match _records t with
  | None => raise (AttributeError "_records")
  | Some VNone => ret tt
  | Some recs =>
      let* test_record := lift (getattr recs "TestRecord") in
      let* rs := lift (py_iter test_record) in
      for_each (enumerate rs) (λ '(index, r),
        modify_self (λ t, add_record t (Record__init__ r index)))
  end.

(** The environment and the flattened attributes are the same in both states. *)
Definition same_attrs (w w' : World) : Prop :=
  same_environment w w' ∧ attrs (self w') = attrs (self w).

(** The state in which [__init__] starts the rebuild, once [snapshot] has
    been fetched or taken from the argument. *)
Definition started `{Imports} (polarion : Polarion) (uri snapshot : Val)
    (log : list Call) (fs : gmap string string) : World :=
  mkWorld (mkTestrun polarion (Comments__init__ uri ∪ ∅) snapshot (deepcopy snapshot)
             None [] ∅) log fs.

(** No request was sent between the two states. *)
Definition same_calls (w w' : World) : Prop := calls w' = calls w.

(** The requests a query may send. *)
Definition is_query (c : Call) : Prop :=
  match c with
  | GetTestRunAttachment _ _ | DownloadFromSvn _ => True
  | _ => False
  end.

(** The instance is untouched and only query requests were sent. *)
Definition only_queried (w w' : World) : Prop :=
  self w' = self w ∧ files w' = files w
  ∧ ∃ extra, calls w' = calls w ++ extra ∧ Forall is_query extra.

(** ** A concrete collaborator and test run, for the examples *)

Definition demo_imports : Imports :=
  mkImports (λ uri, {["_uri" := uri]})
    (λ r, match getattr r "testCaseURI" with Ok (VStr s) => s | _ => "" end).

Definition raw_record (test_case : string) : Val :=
  VObj [("testCaseURI", VStr test_case)].

Definition demo_run (title : string) (unresolvable : bool) : Val :=
  VObj [("uri", VStr "run:1"); ("title", VStr title);
        ("unresolvable", VBool unresolvable); ("attachments", VNone);
        ("records", VObj [("TestRecord",
           VList [raw_record "TC1"; raw_record "TC2"; raw_record "TC1"])])].

(** The positions carried by a list of mirrors. *)
Definition positions (l : list Record_) : list nat := _index <$> l.

(** A service that holds the run titled A, knows no attachment, lists the
    parameters p1 and p2 for every test case and accepts every update. *)
Definition demo_polarion : Polarion :=
  mkPolarion (λ _ _, Some (demo_run "A" false)) (λ _ _ _, Some VNone) (λ _ _, Some "")
    (λ _ _, Some ["p1"; "p2"]) (λ _ _, true).

(** A service that has lost the run: fetching it returns null. *)
Definition lost_polarion : Polarion :=
  mkPolarion (λ _ _, Some VNone) (λ _ _ _, Some VNone) (λ _ _, Some "")
    (λ _ _, Some []) (λ _ _, true).

(** The mirror wrapping [demo_run "A"], built from the supplied snapshot. *)
Definition demo_world (polarion : Polarion) : World :=
  (@Testrun_new demo_imports polarion VNone (demo_run "A" false) [] ∅).2.

(** The mirror of the demo run after the caller set [title] to B. *)
Definition edited_world : World :=
  mkWorld (set_attrs <["title" := VStr "B"]> (self (demo_world demo_polarion))) [] ∅.

(** ** Further notions: the index invariant, and saving an attachment *)

(** The shape [records] and [_record_dict] have after a rebuild: a mirror
    carries its own position, and the index holds, for each key with a mirror,
    the mirrors of that key in the order of [records]. *)
Definition indexed (t : Testrun) : Prop :=
  (∀ i r, records t !! i = Some r → _index r = i)
  ∧ ∀ id, _record_dict t !! id
          = if decide (with_key id (records t) = []) then None
            else Some (with_key id (records t)).

(** [with open(file_path, "wb") as file: file.write(content)].  [writable]
    tells whether the file system lets [file_path] be opened for writing;
    when it does not (the directory is missing), [open] raises. *)
Definition write_file (writable : bool) (file_path content : string) : M unit :=
  λ w, if writable
       then (Ok tt, mkWorld (self w) (calls w) (<[file_path := content]> (files w)))
       else (Raise (FileNotFoundError file_path), w).

(** [saveAttachmentAsFile(file_name, file_path)] *)
Definition saveAttachmentAsFile (writable : bool) (file_name file_path : string) : M unit :=
  let* bin := getAttachment file_name in
  write_file writable file_path bin.

(** [current_value != prev_value] for [key] in [save]; false when either
    side cannot be read. *)
Definition changed (t : Testrun) (key : string) : bool :=
  match attrs t !! key, getattr (_original_polarion_test_run t) key with
  | Some c, Ok p => py_ne c p
  | _, _ => false
  end.

(** The character [c] does not occur in [s]. *)
Definition free_of (c : Ascii.ascii) (s : string) : Prop :=
  c ∉ String.list_ascii_of_string s.

(** The mirror of the demo run after the edit of [title] and a reload. *)
Definition reloaded_world : World :=
  (@_reloadFromPolarion demo_imports edited_world).2.

(** A service that is down: every request raises. *)
Definition down_polarion : Polarion :=
  mkPolarion (λ _ _, None) (λ _ _ _, None) (λ _ _, None) (λ _ _, None) (λ _ _, false).

(** A service like [demo_polarion] that holds one attachment for every name,
    stored at svn:log with content DATA. *)
Definition archive_polarion : Polarion :=
  mkPolarion (λ _ _, Some (demo_run "A" false))
    (λ _ _ _, Some (VObj [("url", VStr "svn:log")])) (λ _ _, Some "DATA")
    (λ _ _, Some ["p1"; "p2"]) (λ _ _, true).

(** The mirror of the demo run after a test case was added without parameters. *)
Definition extended_world : World :=
  (@addTestcase demo_imports (mkWorkitem "wi%3") [] (demo_world demo_polarion)).2.

(** A run whose sub-record collection lacks the [TestRecord] list. *)
Definition broken_run : Val :=
  VObj [("uri", VStr "run:1"); ("title", VStr "C"); ("unresolvable", VBool false);
        ("attachments", VNone); ("records", VObj [])].

(** A service that answers every fetch with [broken_run]. *)
Definition broken_polarion : Polarion :=
  mkPolarion (λ _ _, Some broken_run) (λ _ _ _, Some VNone) (λ _ _, Some "")
    (λ _ _, Some []) (λ _ _, true).

(** * Properties *)

(** ** Value equality *)

Lemma py_eq_refl (v : Val) : py_eq v v = true.
Proof.
  revert v. fix IH 1. intros [ | b | n | s | items | values]; simpl.
  - done.
  - by apply bool_decide_eq_true.
  - by apply bool_decide_eq_true.
  - by apply bool_decide_eq_true.
  - induction items as [ | x items IHitems]; [done | ].
    by rewrite IH, IHitems.
  - induction values as [ | [k x] values IHvalues]; [done | ].
    rewrite IH, IHvalues. rewrite bool_decide_eq_true_2; done.
Qed.

Lemma is_none_dec (v : Val) : {v = VNone} + {v ≠ VNone}.
Proof. destruct v; (by left) || (by right). Qed.

Lemma values_get_elem_of (values : list (string * Val)) (key : string) :
  key ∈ values.*1 → is_Some (values_get values key).
Proof.
  induction values as [ | [k v] rest IH]; simpl.
  - by intros ?%elem_of_nil.
  - intros [-> | Hin]%elem_of_cons.
    + destruct (values_get rest k); [eauto | ].
      rewrite bool_decide_eq_true_2; eauto.
    + destruct (IH Hin) as [w ->]. eauto.
Qed.

(** ** Running statements *)

Lemma bind_ok {A B} (c : M A) (k : A → M B) w a w' :
  c w = (Ok a, w') → bind c k w = k a w'.
Proof. unfold bind. by intros ->. Qed.

Lemma bind_raise {A B} (c : M A) (k : A → M B) w e w' :
  c w = (Raise e, w') → bind c k w = (Raise e, w').
Proof. unfold bind. by intros ->. Qed.

Lemma bind_get_self {B} (k : Testrun → M B) w : bind get_self k w = k (self w) w.
Proof. done. Qed.

Lemma bind_ret {A B} (a : A) (k : A → M B) w : bind (ret a) k w = k a w.
Proof. done. Qed.

Lemma bind_raise_ {A B} e (k : A → M B) w : bind (raise e) k w = (Raise e, w).
Proof. done. Qed.

Lemma bind_lift_ok {A B} (a : A) (k : A → M B) w : bind (lift (Ok a)) k w = k a w.
Proof. done. Qed.

Lemma bind_lift_raise {A B} e (k : A → M B) w : bind (lift (Raise e)) k w = (Raise e, w).
Proof. done. Qed.

Lemma bind_modify_self {B} f (k : unit → M B) w :
  bind (modify_self f) k w = k tt (mkWorld (f (self w)) (calls w) (files w)).
Proof. done. Qed.

Lemma bind_bind {A B C} (c : M A) (k1 : A → M B) (k2 : B → M C) w :
  bind (bind c k1) k2 w = bind c (λ a, bind (k1 a) k2) w.
Proof. unfold bind. by destruct (c w) as [[a | e] w1]. Qed.

Arguments bind : simpl never.
Arguments ret : simpl never.
Arguments raise : simpl never.
Arguments lift : simpl never.
Arguments get_self : simpl never.
Arguments modify_self : simpl never.
Arguments getattr : simpl never.
Arguments py_iter : simpl never.
Arguments py_eq : simpl never.
Arguments truthy : simpl never.

(** One step of a run whose head statement is elementary. *)
Ltac run_step :=
  first [ rewrite bind_get_self | rewrite bind_ret | rewrite bind_raise_
        | rewrite bind_lift_ok | rewrite bind_lift_raise
        | rewrite bind_modify_self | rewrite bind_bind ];
  cbv beta.
Ltac run := repeat run_step.

Lemma self_attr_ok name v w :
  attrs (self w) !! name = Some v → self_attr name w = (Ok v, w).
Proof. unfold self_attr, bind, get_self. simpl. by intros ->. Qed.

Lemma remote__accepted c w :
  accepts (_polarion (self w)) (calls w) c = true → remote_ c w = (Ok tt, sent c w).
Proof. unfold remote_, remote. by intros ->. Qed.

Lemma remote_ok {A} c (answer : Polarion → list Call → option A) w a :
  answer (_polarion (self w)) (calls w) = Some a → remote c answer w = (Ok a, sent c w).
Proof. unfold remote. by intros ->. Qed.

Lemma remote_raise {A} c (answer : Polarion → list Call → option A) w :
  answer (_polarion (self w)) (calls w) = None → remote c answer w = (Raise Fault, sent c w).
Proof. unfold remote. by intros ->. Qed.

Lemma bind_try_ok {A B} (c : M A) h (k : A → M B) w a w' :
  c w = (Ok a, w') → bind (try_except c h) k w = k a w'.
Proof. unfold bind, try_except. by intros ->. Qed.

Lemma bind_try_raise {A B} (c : M A) h (k : A → M B) w e w' :
  c w = (Raise e, w') → bind (try_except c h) k w = bind (h e) k w'.
Proof. unfold bind, try_except. by intros ->. Qed.

(** ** What a statement leaves alone, and what it can raise

    The lemmas below build [sat R E c] along the structure of [c]. *)
Section Sat.
Context (R : relation World) `{!PreOrder R} (E : Exn → Prop).

Lemma sat_ret {A} (a : A) : sat R E (ret a).
Proof. intros w. split; [reflexivity | done]. Qed.

Lemma sat_raise {A} e : E e → sat R E (@raise A e).
Proof. intros He w. split; [reflexivity | ]. simpl. by intros ? [= <-]. Qed.

Lemma sat_lift {A} (r : Result A) : (∀ e, r = Raise e → E e) → sat R E (lift r).
Proof. intros He w. split; [reflexivity | apply He]. Qed.

Lemma sat_bind {A B} (c : M A) (k : A → M B) :
  sat R E c → (∀ a, sat R E (k a)) → sat R E (bind c k).
Proof.
  intros Hc Hk w. unfold bind. destruct (Hc w) as [HR HE].
  destruct (c w) as [[a | e] w1]; simpl in *.
  - destruct (Hk a w1) as [HR' HE']. split; [by etrans | done].
  - split; [done | by intros ? [= <-]; apply HE].
Qed.

Lemma sat_fold_each {A S} (l : list A) (body : S → A → M S) acc :
  (∀ acc x, sat R E (body acc x)) → sat R E (fold_each l body acc).
Proof.
  intros Hbody. revert acc. induction l as [ | x l IH]; intros acc; simpl.
  - apply sat_ret.
  - apply sat_bind; [apply Hbody | apply IH].
Qed.

Lemma sat_for_each {A} (l : list A) (body : A → M unit) :
  (∀ x, sat R E (body x)) → sat R E (for_each l body).
Proof. intros Hbody. apply sat_fold_each. intros _ x. apply Hbody. Qed.

Lemma sat_get_self : sat R E get_self.
Proof. intros w. split; [reflexivity | done]. Qed.

Lemma sat_modify_self f :
  (∀ w, R w (mkWorld (f (self w)) (calls w) (files w))) → sat R E (modify_self f).
Proof. intros Hf w. split; [apply Hf | done]. Qed.

Lemma sat_self_attr name : E (AttributeError name) → sat R E (self_attr name).
Proof.
  intros He. unfold self_attr. apply sat_bind; [apply sat_get_self | ].
  intros t. destruct (attrs t !! name); [apply sat_ret | by apply sat_raise].
Qed.

End Sat.

Lemma sat_weaken {A} (R R' : relation World) E (c : M A) :
  (∀ w w', R w w' → R' w w') → sat R E c → sat R' E c.
Proof. intros HR Hc w. destruct (Hc w) as [? ?]. split; [by apply HR | done]. Qed.

(** A pure step that can fail: every exception it can return is allowed. *)
Ltac sat_lift_tac HE :=
  apply (sat_lift _ _); intros ?; unfold getattr, py_iter, dict_items;
  repeat case_match; intros [= <-]; by apply HE.

(** ** The flatten loops *)

Lemma flatten_loop values w :
  for_each values flatten_key w
  = (Ok tt, mkWorld (flattened values (self w)) (calls w) (files w)).
Proof.
  unfold for_each, flattened. revert w.
  induction values as [ | [key v] values IH]; intros w; simpl.
  - by destruct w.
  - unfold bind at 1. simpl. case_bool_decide; simpl; by rewrite IH.
Qed.

Lemma flattened_attrs values t key :
  key ≠ "records" →
  attrs (flattened values t) !! key
  = match values_get values key with Some v => Some v | None => attrs t !! key end.
Proof.
  intros Hkey. unfold flattened. revert t.
  induction values as [ | [k v] values IH]; intros t; simpl; [done | ].
  rewrite IH. destruct (values_get values key); [done | ].
  repeat case_bool_decide; simplify_eq; simpl;
    rewrite ?lookup_insert_eq; try done; by rewrite lookup_insert_ne.
Qed.

Lemma flattened__records values t :
  _records (flattened values t)
  = match values_get values "records" with Some v => Some v | None => _records t end.
Proof.
  unfold flattened. revert t.
  induction values as [ | [k v] values IH]; intros t; simpl; [done | ].
  rewrite IH. destruct (values_get values "records"); [done | ].
  by case_bool_decide.
Qed.

(** ** The loop over the sub-records *)

Section Records.
Context `{Imports}.

Lemma records_loop (l : list (nat * Val)) w :
  for_each l (λ '(index, r), modify_self (λ t, add_record t (Record__init__ r index))) w
  = (Ok tt, mkWorld (foldl add_record (self w) ((λ ir, Record__init__ ir.2 ir.1) <$> l))
              (calls w) (files w)).
Proof.
  unfold for_each. revert w. induction l as [ | [i r] l IH]; intros w; simpl.
  - by destruct w.
  - unfold bind at 1. simpl. by rewrite IH.
Qed.

Lemma enumerate_mirrors (rs : list Val) :
  (λ ir, Record__init__ ir.2 ir.1) <$> enumerate rs = mirrors rs.
Proof. unfold enumerate, mirrors. by rewrite fmap_imap. Qed.

End Records.

Lemma add_record_frame t r :
  _polarion (add_record t r) = _polarion t
  ∧ attrs (add_record t r) = attrs t
  ∧ _polarion_test_run (add_record t r) = _polarion_test_run t
  ∧ _original_polarion_test_run (add_record t r) = _original_polarion_test_run t
  ∧ _records (add_record t r) = _records t
  ∧ records (add_record t r) = records t ++ [r].
Proof. unfold add_record. simpl. by destruct (_record_dict t !! testcase_id r). Qed.

Lemma add_record_dict t r id :
  _record_dict (add_record t r) !! id
  = if decide (testcase_id r = id)
    then Some (default [] (_record_dict t !! id) ++ [r])
    else _record_dict t !! id.
Proof.
  unfold add_record. simpl.
  destruct (_record_dict t !! testcase_id r) as [l | ] eqn:Hl; simpl;
    case_decide; simplify_eq; rewrite ?lookup_insert_eq, ?Hl; try done;
    by rewrite lookup_insert_ne.
Qed.

Lemma add_records_frame ms t :
  _polarion (foldl add_record t ms) = _polarion t
  ∧ attrs (foldl add_record t ms) = attrs t
  ∧ _polarion_test_run (foldl add_record t ms) = _polarion_test_run t
  ∧ _original_polarion_test_run (foldl add_record t ms) = _original_polarion_test_run t
  ∧ _records (foldl add_record t ms) = _records t
  ∧ records (foldl add_record t ms) = records t ++ ms.
Proof.
  revert t. induction ms as [ | r ms IH]; intros t; simpl.
  - by rewrite app_nil_r.
  - destruct (IH (add_record t r)) as (-> & -> & -> & -> & -> & ->).
    destruct (add_record_frame t r) as (-> & -> & -> & -> & -> & ->).
    by rewrite <- app_assoc.
Qed.

(** The index after appending the mirrors [ms]: each key gains the mirrors of
    [ms] with that key, in order; a key without mirrors gains no entry. *)
Lemma add_records_dict ms t id :
  _record_dict (foldl add_record t ms) !! id
  = match _record_dict t !! id with
    | Some l => Some (l ++ with_key id ms)
    | None => if decide (with_key id ms = []) then None else Some (with_key id ms)
    end.
Proof.
  unfold with_key. revert t. induction ms as [ | r ms IH]; intros t; simpl.
  - destruct (_record_dict t !! id); [by rewrite app_nil_r | done].
  - rewrite IH, add_record_dict, filter_cons.
    destruct (decide (testcase_id r = id)) as [Hr | Hr]; [ | done].
    destruct (_record_dict t !! id) as [l | ]; simpl.
    + by rewrite <- app_assoc.
    + done.
Qed.

(** ** The rebuild *)

#[local] Instance same_environment_preorder : PreOrder same_environment.
Proof.
  split.
  - by intros w.
  - intros w1 w2 w3 (? & ? & ? & ? & ?) (? & ? & ? & ? & ?).
    unfold same_environment. repeat split; congruence.
Qed.

Section Build.
Context `{Imports}.

Lemma build_unresolved w :
  unresolved (_polarion_test_run (self w)) →
  _buildWorkitemFromPolarion w = (Raise NotRetrieved, w).
Proof.
  unfold _buildWorkitemFromPolarion. run.
  intros [-> | (u & Hu & Htrue)]; [by run | ].
  destruct (_polarion_test_run (self w)); try done;
    rewrite Hu; run; by rewrite Htrue.
Qed.

Lemma getattr_obj values name v :
  values_get values name = Some v → getattr (VObj values) name = Ok v.
Proof. unfold getattr. by intros ->. Qed.

Lemma build_resolved w values u :
  _polarion_test_run (self w) = VObj values →
  values_get values "unresolvable" = Some u →
  truthy u = false →
  _buildWorkitemFromPolarion w
  = records_part (mkWorld (cleared (flattened values (self w))) (calls w) (files w)).
Proof.
  intros Hraw Hu Hfalse.
  unfold _buildWorkitemFromPolarion. run. rewrite Hraw.
  rewrite (getattr_obj _ _ _ Hu). run. rewrite Hfalse. simpl. run.
  unfold for_each at 1. simpl. run.
  change (fold_each values (λ _ x, flatten_key x) ()) with (for_each values flatten_key).
  rewrite (bind_ok _ _ _ _ _ (flatten_loop values w)). by run.
Qed.

(** A rebuild that does not raise found a resolvable snapshot. *)
Lemma build_ok_resolvable w w' :
  _buildWorkitemFromPolarion w = (Ok tt, w') →
  ∃ values u, _polarion_test_run (self w) = VObj values
    ∧ values_get values "unresolvable" = Some u ∧ truthy u = false.
Proof.
  unfold _buildWorkitemFromPolarion. run.
  destruct (_polarion_test_run (self w)) as [ | | | | | values] eqn:Hraw;
    try (by run).
  unfold getattr.
  destruct (values_get values "unresolvable") as [u | ] eqn:Hu; run; [ | done].
  destruct (truthy u) eqn:Htr; simpl; [by run | ]. eauto.
Qed.

Lemma records_part_absent w :
  _records (self w) = Some VNone → records_part w = (Ok tt, w).
Proof. unfold records_part. run. by intros ->. Qed.

Lemma records_part_present w recs test_record rs :
  _records (self w) = Some recs → recs ≠ VNone →
  getattr recs "TestRecord" = Ok test_record →
  py_iter test_record = Ok rs →
  records_part w
  = (Ok tt, mkWorld (foldl add_record (self w) (mirrors rs)) (calls w) (files w)).
Proof.
  intros Hrecs Hnone Htr Hrs. unfold records_part. run. rewrite Hrecs.
  assert ((let* test_record := lift (getattr recs "TestRecord") in
           let* rs := lift (py_iter test_record) in
           for_each (enumerate rs) (λ '(index, r),
             modify_self (λ t, add_record t (Record__init__ r index)))) w
          = (Ok tt, mkWorld (foldl add_record (self w) (mirrors rs)) (calls w) (files w)))
    as Hloop.
  { rewrite Htr. run. rewrite Hrs. run.
    by rewrite records_loop, enumerate_mirrors. }
  by destruct recs.
Qed.

#[local] Instance same_attrs_preorder : PreOrder same_attrs.
Proof.
  split.
  - by intros w.
  - intros w1 w2 w3 [? ?] [? ?]. split; [by etrans | congruence].
Qed.

Lemma records_part_sat (E : Exn → Prop) :
  (∀ e, e ≠ ProvideEither → E e) → sat same_attrs E records_part.
Proof.
  intros HE.
  unfold records_part. apply (sat_bind _ _); [by apply (sat_get_self _ _) | ]. intros t.
  destruct (_records t) as [recs | ]; [ | by apply (sat_raise _ _); apply HE].
  assert (sat same_attrs E
            (let* test_record := lift (getattr recs "TestRecord") in
             let* rs := lift (py_iter test_record) in
             for_each (enumerate rs) (λ '(index, r),
               modify_self (λ t, add_record t (Record__init__ r index))))) as Hloop.
  { apply (sat_bind _ _); [by sat_lift_tac HE | ].
    intros test_record. apply (sat_bind _ _); [by sat_lift_tac HE | ].
    intros rs. apply (sat_for_each _ _). intros [index r].
    apply sat_modify_self. intros w. simpl.
    destruct (add_record_frame (self w) (Record__init__ r index))
      as (? & ? & ? & ? & ? & ?).
    by repeat split. }
  destruct recs; try exact Hloop. by apply (sat_ret _ _).
Qed.

(** The rebuild keeps the environment and does not raise the constructor's
    configuration error. *)
Lemma build_sat (E : Exn → Prop) :
  (∀ e, e ≠ ProvideEither → E e) → sat same_environment E _buildWorkitemFromPolarion.
Proof.
  intros HE. unfold _buildWorkitemFromPolarion.
  apply (sat_bind _ _); [by apply (sat_get_self _ _) | ]. intros t.
  apply (sat_bind _ _).
  { destruct (_polarion_test_run t);
      try (apply (sat_bind _ _); [by sat_lift_tac HE | intros; by apply (sat_ret _ _)]).
    by apply (sat_ret _ _). }
  intros [ | ]; [ | by apply (sat_raise _ _); apply HE].
  apply (sat_bind _ _); [by sat_lift_tac HE | ]. intros items.
  apply (sat_bind _ _).
  { apply (sat_for_each _ _). intros [attr value]. apply (sat_for_each _ _). intros [key v].
    unfold flatten_key. case_bool_decide; by apply sat_modify_self. }
  intros _. apply (sat_bind _ _); [by apply sat_modify_self | ].
  intros _. apply (sat_bind _ _); [by apply sat_modify_self | ].
  intros _. eapply sat_weaken; [ | by apply records_part_sat]. by intros w w' [? _].
Qed.

End Build.

(** ** Lookup in the record index *)

Lemma hasTestCase_run id w :
  hasTestCase id w = (Ok (bool_decide (is_Some (_record_dict (self w) !! id))), w).
Proof. unfold hasTestCase. run. by case_bool_decide. Qed.

(** C4. [getTestCase(k, i)] raises the invalid-argument exception for every
    negative [i], whether or not [k] is in the index; for [i >= 0] it returns
    [None] when [k] is absent, and the [i]-th mirror of [k]'s list when [k] is
    present and [i] is below the length of that list; [i] defaults to 0. *)
Theorem getTestCase_contract (id : string) (iteration : Z) (w : World) :
  ((iteration < 0)%Z →
     getTestCase id iteration w = (Raise IterationMustBePositive, w))
  ∧ ((0 ≤ iteration)%Z → _record_dict (self w) !! id = None →
     getTestCase id iteration w = (Ok None, w))
  ∧ (∀ l, (0 ≤ iteration)%Z → _record_dict (self w) !! id = Some l →
       (iteration < Z.of_nat (length l))%Z →
       ∃ r, l !! Z.to_nat iteration = Some r
            ∧ getTestCase id iteration w = (Ok (Some r), w))
  ∧ getTestCase_default id w = getTestCase id 0 w.
Proof.
  split; [ | split; [ | split]].
  - intros Hneg. unfold getTestCase. by rewrite bool_decide_eq_true_2.
  - intros Hpos Habsent. unfold getTestCase.
    rewrite bool_decide_eq_false_2 by lia.
    rewrite (bind_ok _ _ _ _ _ (hasTestCase_run id w)), Habsent.
    rewrite bool_decide_eq_false_2; [done | ]. by intros [? ?].
  - intros l Hpos Hpresent Hlt.
    destruct (lookup_lt_is_Some_2 l (Z.to_nat iteration)) as [r Hr]; [lia | ].
    exists r. split; [done | ]. unfold getTestCase.
    rewrite bool_decide_eq_false_2 by lia.
    rewrite (bind_ok _ _ _ _ _ (hasTestCase_run id w)), Hpresent.
    rewrite bool_decide_eq_true_2 by eauto. run. by rewrite Hpresent, Hr.
  - done.
Qed.

Lemma getTestCase_contract_witness :
  getTestCase "TC9" (-1) (demo_world demo_polarion)
    = (Raise IterationMustBePositive, demo_world demo_polarion)
  ∧ getTestCase "TC9" 0 (demo_world demo_polarion) = (Ok None, demo_world demo_polarion)
  ∧ ∃ r, _index r = 2
         ∧ getTestCase "TC1" 1 (demo_world demo_polarion)
           = (Ok (Some r), demo_world demo_polarion).
Proof.
  split; [ | split].
  - destruct (getTestCase_contract "TC9" (-1) (demo_world demo_polarion)) as (Hneg & _).
    exact (Hneg ltac:(lia)).
  - destruct (getTestCase_contract "TC9" 0 (demo_world demo_polarion))
      as (_ & Habsent & _).
    apply Habsent.
    + lia.
    + vm_compute. reflexivity.
  - destruct (getTestCase_contract "TC1" 1 (demo_world demo_polarion))
      as (_ & _ & Hpresent & _).
    destruct (Hpresent [mkRecord (raw_record "TC1") 0 "TC1";
                        mkRecord (raw_record "TC1") 2 "TC1"])
      as (r & Hr & Hrun).
    + lia.
    + vm_compute. reflexivity.
    + simpl. lia.
    + exists r. split; [ | exact Hrun].
      injection Hr as <-. reflexivity.
Defined.

(** C9. For a key present in the index and an iteration at or beyond the
    number of its mirrors, [getTestCase] raises the list's index error; it
    does not return [None]. *)
Theorem getTestCase_out_of_range (id : string) (iteration : Z) (w : World)
    (l : list Record_) :
  _record_dict (self w) !! id = Some l →
  (Z.of_nat (length l) ≤ iteration)%Z →
  getTestCase id iteration w = (Raise IndexError, w).
Proof.
  intros Hpresent Hge. unfold getTestCase.
  rewrite bool_decide_eq_false_2 by lia.
  rewrite (bind_ok _ _ _ _ _ (hasTestCase_run id w)), Hpresent.
  rewrite bool_decide_eq_true_2 by eauto. run. rewrite Hpresent.
  rewrite (proj2 (lookup_ge_None l (Z.to_nat iteration))); [done | lia].
Qed.

Lemma getTestCase_out_of_range_witness :
  getTestCase "TC1" 2 (demo_world demo_polarion)
  = (Raise IndexError, demo_world demo_polarion).
Proof.
  refine (getTestCase_out_of_range "TC1" 2 (demo_world demo_polarion)
            [mkRecord (raw_record "TC1") 0 "TC1"; mkRecord (raw_record "TC1") 2 "TC1"]
            _ _).
  - vm_compute. reflexivity.
  - simpl. lia.
Defined.

(** ** Construction *)

Section Construction.
Context `{Imports}.

Lemma init_neither polarion log fs :
  (Testrun_new polarion VNone VNone log fs).1 = Raise ProvideEither.
Proof. done. Qed.

Lemma init_supplied polarion snapshot log fs :
  snapshot ≠ VNone →
  Testrun_new polarion VNone snapshot log fs
  = _buildWorkitemFromPolarion (started polarion VNone snapshot log fs).
Proof.
  intros Hsome. unfold Testrun_new, __init__. run. by destruct snapshot; run.
Qed.

Lemma init_fetched polarion uri polarion_test_run snapshot log fs :
  uri ≠ VNone →
  getTestRunByUri polarion log uri = Some snapshot →
  Testrun_new polarion uri polarion_test_run log fs
  = _buildWorkitemFromPolarion
      (started polarion uri snapshot (log ++ [GetTestRunByUri uri]) fs).
Proof.
  intros Huri Hfetch. unfold Testrun_new, __init__. run.
  destruct uri; try done;
    (erewrite bind_try_ok;
     [ | erewrite bind_ok; [ | apply remote_ok; simpl; exact Hfetch]; by run ]);
    by run.
Qed.

Lemma init_fetch_fails polarion uri polarion_test_run log fs :
  uri ≠ VNone →
  getTestRunByUri polarion log uri = None →
  (Testrun_new polarion uri polarion_test_run log fs).1 = Raise (CannotFindTestRun uri).
Proof.
  intros Huri Hfetch. unfold Testrun_new, __init__. run.
  destruct uri; try done;
    (erewrite bind_try_raise;
     [ | erewrite bind_raise; [ | apply remote_raise; simpl; exact Hfetch]; done ]);
    by run.
Qed.

Lemma reload_fetched w uri snapshot :
  attrs (self w) !! "uri" = Some uri →
  getTestRunByUri (_polarion (self w)) (calls w) uri = Some snapshot →
  _reloadFromPolarion w
  = (let* _ := _buildWorkitemFromPolarion in
     let* t := get_self in
     modify_self (set_original_polarion_test_run (deepcopy (_polarion_test_run t))))
      (mkWorld (set_polarion_test_run snapshot (self w))
         (calls w ++ [GetTestRunByUri uri]) (files w)).
Proof.
  intros Huri Hfetch. unfold _reloadFromPolarion.
  rewrite (bind_ok _ _ _ _ _ (self_attr_ok _ _ _ Huri)).
  rewrite (bind_ok _ _ w snapshot (sent (GetTestRunByUri uri) w)).
  - by run.
  - unfold remote. by rewrite Hfetch.
Qed.

Lemma reload_fetch_fails w uri :
  attrs (self w) !! "uri" = Some uri →
  getTestRunByUri (_polarion (self w)) (calls w) uri = None →
  _reloadFromPolarion w = (Raise Fault, sent (GetTestRunByUri uri) w).
Proof.
  intros Huri Hfetch. unfold _reloadFromPolarion.
  rewrite (bind_ok _ _ _ _ _ (self_attr_ok _ _ _ Huri)).
  apply bind_raise. unfold remote. by rewrite Hfetch.
Qed.

End Construction.

(** ** The record index *)

Section Index.
Context `{Imports}.

(** C3. The rebuild keeps the sub-records' positions in [records]: the mirror
    at position [i] wraps the [i]-th raw sub-record and carries [i] as its
    index.  [_record_dict] maps each business key to the mirrors of [records]
    with that key, in the order of [records], and holds no entry for a key
    without mirrors.  When the sub-record collection is absent ([None]), the
    rebuild succeeds with [records] and [_record_dict] empty. *)
Theorem build_record_index (w : World) (values : list (string * Val)) (u recs : Val) :
  _polarion_test_run (self w) = VObj values →
  values_get values "unresolvable" = Some u →
  truthy u = false →
  values_get values "records" = Some recs →
  (recs = VNone →
     ∃ w', _buildWorkitemFromPolarion w = (Ok tt, w')
           ∧ records (self w') = [] ∧ _record_dict (self w') = ∅)
  ∧ (∀ test_record rs,
       recs ≠ VNone →
       getattr recs "TestRecord" = Ok test_record →
       py_iter test_record = Ok rs →
       ∃ w', _buildWorkitemFromPolarion w = (Ok tt, w')
             ∧ (∀ i, records (self w') !! i = (λ r, Record__init__ r i) <$> rs !! i)
             ∧ (∀ id, _record_dict (self w') !! id
                      = if decide (with_key id (records (self w')) = []) then None
                        else Some (with_key id (records (self w'))))).
Proof.
  intros Hraw Hu Hfalse Hrecs.
  rewrite (build_resolved w values u Hraw Hu Hfalse).
  set (w1 := mkWorld (cleared (flattened values (self w))) (calls w) (files w)).
  assert (_records (self w1) = Some recs) as Hfield.
  { simpl. by rewrite flattened__records, Hrecs. }
  split.
  - intros ->. exists w1. by rewrite (records_part_absent w1 Hfield).
  - intros test_record rs Hnone Htr Hrs.
    rewrite (records_part_present w1 recs test_record rs Hfield Hnone Htr Hrs).
    eexists. split; [done | ]. simpl.
    destruct (add_records_frame (mirrors rs) (cleared (flattened values (self w))))
      as (_ & _ & _ & _ & _ & ->).
    split.
    + intros i. simpl. unfold mirrors. by rewrite list_lookup_imap.
    + intros id. rewrite add_records_dict. simpl. by rewrite lookup_empty.
Qed.

End Index.

Lemma build_record_index_witness :
  ∃ w', @_buildWorkitemFromPolarion demo_imports
          (started (H := demo_imports) demo_polarion VNone (demo_run "A" false) [] ∅)
        = (Ok tt, w')
        ∧ positions (records (self w')) = [0; 1; 2]
        ∧ positions <$> _record_dict (self w') !! "TC1" = Some [0; 2]
        ∧ positions <$> _record_dict (self w') !! "TC2" = Some [1]
        ∧ _record_dict (self w') !! "TC3" = None.
Proof.
  destruct (build_record_index (H := demo_imports)
              (started (H := demo_imports) demo_polarion VNone (demo_run "A" false) [] ∅)
              [("uri", VStr "run:1"); ("title", VStr "A");
               ("unresolvable", VBool false); ("attachments", VNone);
               ("records", VObj [("TestRecord",
                  VList [raw_record "TC1"; raw_record "TC2"; raw_record "TC1"])])]
              (VBool false)
              (VObj [("TestRecord",
                 VList [raw_record "TC1"; raw_record "TC2"; raw_record "TC1"])])
              eq_refl eq_refl eq_refl eq_refl) as [_ Hpresent].
  destruct (Hpresent (VList [raw_record "TC1"; raw_record "TC2"; raw_record "TC1"])
              [raw_record "TC1"; raw_record "TC2"; raw_record "TC1"])
    as (w' & Hrun & Hpos & Hidx); [done | reflexivity | reflexivity | ].
  exists w'. split; [exact Hrun | ].
  assert (records (self w')
          = [Record__init__ (H := demo_imports) (raw_record "TC1") 0;
             Record__init__ (H := demo_imports) (raw_record "TC2") 1;
             Record__init__ (H := demo_imports) (raw_record "TC1") 2]) as Hrs.
  { apply list_eq. intros i. rewrite Hpos. by destruct i as [ | [ | [ | i]]]. }
  rewrite !Hidx, Hrs. repeat split; vm_compute; reflexivity.
Defined.

(** ** The resolution guard *)

Section Guard.
Context `{Imports}.

(** C6. When the snapshot is null or marked unresolvable, the rebuild raises
    the "not retrieved" exception at its guard and leaves the state as it
    found it: no key is flattened, [records] and [_record_dict] are not
    rebuilt.  This holds for a snapshot supplied to the constructor, for one
    the constructor fetched, and for one fetched by a reload. *)
Theorem unresolved_snapshot_not_flattened (snapshot : Val) :
  unresolved snapshot →
  (∀ w, _polarion_test_run (self w) = snapshot →
        _buildWorkitemFromPolarion w = (Raise NotRetrieved, w))
  ∧ (∀ polarion log fs, snapshot ≠ VNone →
        Testrun_new polarion VNone snapshot log fs
        = (Raise NotRetrieved, started polarion VNone snapshot log fs))
  ∧ (∀ polarion uri polarion_test_run log fs,
        uri ≠ VNone → getTestRunByUri polarion log uri = Some snapshot →
        Testrun_new polarion uri polarion_test_run log fs
        = (Raise NotRetrieved,
           started polarion uri snapshot (log ++ [GetTestRunByUri uri]) fs))
  ∧ (∀ w uri,
        attrs (self w) !! "uri" = Some uri →
        getTestRunByUri (_polarion (self w)) (calls w) uri = Some snapshot →
        _reloadFromPolarion w
        = (Raise NotRetrieved,
           mkWorld (set_polarion_test_run snapshot (self w))
             (calls w ++ [GetTestRunByUri uri]) (files w))).
Proof.
  intros Hun. repeat split.
  - intros w <-. by apply build_unresolved.
  - intros polarion log fs Hsome. rewrite init_supplied by done.
    by apply build_unresolved.
  - intros polarion uri ptr log fs Huri Hfetch.
    rewrite (init_fetched _ _ _ _ _ _ Huri Hfetch). by apply build_unresolved.
  - intros w uri Huri Hfetch. rewrite (reload_fetched _ _ _ Huri Hfetch).
    apply bind_raise. by apply build_unresolved.
Qed.

End Guard.

Lemma unresolved_snapshot_not_flattened_witness :
  @Testrun_new demo_imports demo_polarion VNone (demo_run "A" true) [] ∅
  = (Raise NotRetrieved,
     started (H := demo_imports) demo_polarion VNone (demo_run "A" true) [] ∅).
Proof.
  destruct (unresolved_snapshot_not_flattened (H := demo_imports) (demo_run "A" true))
    as (_ & Hsupplied & _).
  - right. exists (VBool true). split; reflexivity.
  - apply Hsupplied. discriminate.
Defined.

(** ** The constructor's arguments *)

(** C5, as stated, fails: with both a URI and a snapshot the constructor
    raises nothing and returns the mirror of the fetched run. *)
Lemma both_arguments_accepted :
  VStr "run:1" ≠ VNone
  ∧ demo_run "Z" false ≠ VNone
  ∧ (@Testrun_new demo_imports demo_polarion (VStr "run:1") (demo_run "Z" false) [] ∅).1
    = Ok tt.
Proof. split; [discriminate | split; [discriminate | vm_compute; reflexivity]]. Qed.

Section ConstructorArguments.
Context `{Imports}.

(** C5, amended.  Supplying neither a URI nor a snapshot raises the
    configuration error.  Supplying both does not: the URI takes precedence,
    the snapshot argument is ignored, and the constructor behaves as with the
    URI alone.  With at least one of the two the configuration error is not
    raised. *)
Theorem constructor_arguments (polarion : Polarion) (uri polarion_test_run : Val)
    (log : list Call) (fs : gmap string string) :
  (uri = VNone → polarion_test_run = VNone →
     (Testrun_new polarion uri polarion_test_run log fs).1 = Raise ProvideEither)
  ∧ (uri ≠ VNone →
     Testrun_new polarion uri polarion_test_run log fs
     = Testrun_new polarion uri VNone log fs)
  ∧ (uri ≠ VNone ∨ polarion_test_run ≠ VNone →
     (Testrun_new polarion uri polarion_test_run log fs).1 ≠ Raise ProvideEither).
Proof.
  assert (∀ w, (_buildWorkitemFromPolarion w).1 ≠ Raise ProvideEither) as Hbuild.
  { intros w Hraise.
    destruct (build_sat (λ e, e ≠ ProvideEither) (λ e He, He) w) as [_ Hexn].
    by apply (Hexn ProvideEither). }
  split; [ | split].
  - intros -> ->. apply init_neither.
  - intros Huri. unfold Testrun_new, __init__.
    destruct uri; try done; by destruct polarion_test_run.
  - intros Hone.
    destruct (is_none_dec uri) as [-> | Huri].
    + destruct Hone as [? | Hsnap]; [done | ].
      rewrite init_supplied by done. apply Hbuild.
    + destruct (getTestRunByUri polarion log uri) as [snapshot | ] eqn:Hfetch.
      * rewrite (init_fetched _ _ _ _ _ _ Huri Hfetch). apply Hbuild.
      * by rewrite (init_fetch_fails _ _ _ _ _ Huri Hfetch).
Qed.

End ConstructorArguments.

Lemma constructor_arguments_witness :
  (@Testrun_new demo_imports demo_polarion VNone VNone [] ∅).1 = Raise ProvideEither
  ∧ @Testrun_new demo_imports demo_polarion (VStr "run:1") (demo_run "Z" false) [] ∅
    = @Testrun_new demo_imports demo_polarion (VStr "run:1") VNone [] ∅
  ∧ (@Testrun_new demo_imports demo_polarion VNone (demo_run "Z" false) [] ∅).1
    ≠ Raise ProvideEither.
Proof.
  split; [ | split].
  - destruct (constructor_arguments (H := demo_imports) demo_polarion VNone VNone [] ∅)
      as (Hneither & _).
    exact (Hneither eq_refl eq_refl).
  - destruct (constructor_arguments (H := demo_imports) demo_polarion (VStr "run:1")
                (demo_run "Z" false) [] ∅) as (_ & Hboth & _).
    apply Hboth. discriminate.
  - destruct (constructor_arguments (H := demo_imports) demo_polarion VNone
                (demo_run "Z" false) [] ∅) as (_ & _ & Hone).
    apply Hone. right. discriminate.
Defined.

(** ** Failure of a reload *)

(** C7, as stated, fails: when the service has lost the run, the reload
    raises at the guard of the rebuild, but the stored raw snapshot has
    already been replaced by the null answer. *)
Lemma failed_reload_replaces_snapshot :
  (@_reloadFromPolarion demo_imports (demo_world lost_polarion)).1 = Raise NotRetrieved
  ∧ _polarion_test_run (self (@_reloadFromPolarion demo_imports
                                 (demo_world lost_polarion)).2)
    ≠ _polarion_test_run (self (demo_world lost_polarion)).
Proof. split; [vm_compute; reflexivity | vm_compute; discriminate]. Qed.

Section Reload.
Context `{Imports}.

(** C7, amended.  When the fetch of a reload raises, the failure propagates
    and the instance is untouched.  When the rebuild raises at its guard (the
    fetched snapshot is null or unresolvable), the baseline, the flattened
    attributes, [records] and [_record_dict] are untouched, and the stored raw
    snapshot is the fetched one.  On every failing path of a reload the
    baseline is the one held before. *)
Theorem reload_failure (w : World) :
  (∀ uri, attrs (self w) !! "uri" = Some uri →
     getTestRunByUri (_polarion (self w)) (calls w) uri = None →
     ∃ w', _reloadFromPolarion w = (Raise Fault, w') ∧ self w' = self w)
  ∧ (∀ uri snapshot, attrs (self w) !! "uri" = Some uri →
     getTestRunByUri (_polarion (self w)) (calls w) uri = Some snapshot →
     unresolved snapshot →
     ∃ w', _reloadFromPolarion w = (Raise NotRetrieved, w')
           ∧ self w' = set_polarion_test_run snapshot (self w))
  ∧ (∀ e w', _reloadFromPolarion w = (Raise e, w') →
     _original_polarion_test_run (self w') = _original_polarion_test_run (self w)).
Proof.
  split; [ | split].
  - intros uri Huri Hfetch. eexists. by rewrite (reload_fetch_fails _ _ Huri Hfetch).
  - intros uri snapshot Huri Hfetch Hun. eexists.
    rewrite (reload_fetched _ _ _ Huri Hfetch).
    split; [apply bind_raise; by apply build_unresolved | done].
  - intros e w' Hrun.
    destruct (attrs (self w) !! "uri") as [uri | ] eqn:Huri.
    2:{ unfold _reloadFromPolarion, self_attr in Hrun. revert Hrun. run.
        rewrite Huri. run. by intros [= _ <-]. }
    destruct (getTestRunByUri (_polarion (self w)) (calls w) uri)
      as [snapshot | ] eqn:Hfetch.
    2:{ rewrite (reload_fetch_fails _ _ Huri Hfetch) in Hrun. by simplify_eq. }
    rewrite (reload_fetched _ _ _ Huri Hfetch) in Hrun.
    set (w1 := mkWorld _ _ _) in Hrun.
    destruct (build_sat (λ _, True) (λ _ _, I) w1) as [(_ & _ & _ & _ & Hbase) _].
    unfold bind at 1 in Hrun.
    destruct (_buildWorkitemFromPolarion w1) as [[[] | e1] w2]; [done | ].
    simplify_eq. exact Hbase.
Qed.

End Reload.

Lemma reload_failure_witness :
  ∃ w', @_reloadFromPolarion demo_imports (demo_world lost_polarion)
        = (Raise NotRetrieved, w')
        ∧ self w' = set_polarion_test_run VNone (self (demo_world lost_polarion)).
Proof.
  destruct (reload_failure (H := demo_imports) (demo_world lost_polarion))
    as (_ & Hguard & _).
  apply (Hguard (VStr "run:1") VNone).
  - vm_compute. reflexivity.
  - reflexivity.
  - left. reflexivity.
Defined.

(** ** The diff of [save] *)

Lemma stage_key_skip acc kv w :
  kv.1 = "records" → stage_key acc kv w = (Ok acc, w).
Proof.
  intros Hkey. unfold stage_key. rewrite Hkey.
  rewrite bool_decide_eq_true_2; [done | ]. by apply list_elem_of_singleton.
Qed.

Lemma stage_key_run acc kv w c p :
  kv.1 ≠ "records" →
  attrs (self w) !! kv.1 = Some c →
  getattr (_original_polarion_test_run (self w)) kv.1 = Ok p →
  stage_key acc kv w = (Ok (if py_ne c p then <[kv.1 := c]> acc else acc), w).
Proof.
  intros Hkey Hc Hp. unfold stage_key.
  rewrite bool_decide_eq_false_2 by by intros ?%list_elem_of_singleton.
  rewrite (bind_ok _ _ _ _ _ (self_attr_ok _ _ _ Hc)). run. rewrite Hp. run.
  by destruct (py_ne c p).
Qed.

Lemma staged_run w values :
  _polarion_test_run (self w) = VObj values →
  staged w = fold_each values stage_key ∅ w.
Proof.
  intros Hraw. unfold staged. run. rewrite Hraw. simpl. run. simpl.
  unfold bind, ret. by destruct (fold_each values stage_key ∅ w) as [[a | e] w1].
Qed.

(** When no visited key differs from the baseline, the payload is unchanged. *)
Lemma stage_loop_equal values acc w :
  (∀ key, key ∈ values.*1 → key ≠ "records" →
     ∃ c p, attrs (self w) !! key = Some c
            ∧ getattr (_original_polarion_test_run (self w)) key = Ok p
            ∧ py_eq c p = true) →
  fold_each values stage_key acc w = (Ok acc, w).
Proof.
  induction values as [ | [key v] values IH]; intros Hall; cbn [fold_each]; [done | ].
  rewrite fmap_cons in Hall. cbn [fst] in Hall.
  destruct (decide (key = "records")) as [Hkey | Hkey].
  - rewrite (bind_ok _ _ _ _ _ (stage_key_skip acc (key, v) w Hkey)).
    apply IH. intros k Hk. apply Hall. by apply elem_of_cons; right.
  - destruct (Hall key) as (c & p & Hc & Hp & Heq); [by apply elem_of_cons; left | done | ].
    rewrite (bind_ok _ _ _ _ _ (stage_key_run acc (key, v) w c p Hkey Hc Hp)).
    unfold py_ne. rewrite Heq. cbn [negb].
    apply IH. intros k Hk. apply Hall. by apply elem_of_cons; right.
Qed.


(** ** The state after a successful rebuild and after a reload *)

Section Rebuilt.
Context `{Imports}.

Lemma build_ok_state w w' :
  _buildWorkitemFromPolarion w = (Ok tt, w') →
  ∃ values, _polarion_test_run (self w) = VObj values
    ∧ same_environment w w'
    ∧ ∀ key, key ≠ "records" →
        attrs (self w') !! key
        = match values_get values key with
          | Some v => Some v
          | None => attrs (self w) !! key
          end.
Proof.
  intros Hrun.
  destruct (build_ok_resolvable w w' Hrun) as (values & u & Hraw & Hu & Hfalse).
  exists values. split; [done | ].
  destruct (build_sat (λ _, True) (λ _ _, I) w) as [Henv _].
  rewrite Hrun in Henv. split; [done | ].
  intros key Hkey.
  rewrite (build_resolved w values u Hraw Hu Hfalse) in Hrun.
  destruct (records_part_sat (λ _, True) (λ _ _, I)
              (mkWorld (cleared (flattened values (self w))) (calls w) (files w)))
    as [[_ Hattrs] _].
  rewrite Hrun in Hattrs. simpl in Hattrs. rewrite Hattrs.
  by apply flattened_attrs.
Qed.

(** The constructor returns a mirror whose raw snapshot and baseline are the
    same object value, every key of which (but [records]) is an attribute
    holding the snapshot's value. *)
Lemma fresh_state polarion uri polarion_test_run log fs w :
  Testrun_new polarion uri polarion_test_run log fs = (Ok tt, w) →
  ∃ values, _polarion_test_run (self w) = VObj values
    ∧ _original_polarion_test_run (self w) = VObj values
    ∧ ∀ key v, key ≠ "records" → values_get values key = Some v →
        attrs (self w) !! key = Some v.
Proof.
  intros Hnew.
  assert (∃ snapshot log', _buildWorkitemFromPolarion
            (started polarion uri snapshot log' fs) = (Ok tt, w))
    as (snapshot & log' & Hrun).
  { destruct (is_none_dec uri) as [-> | Huri].
    - destruct (is_none_dec polarion_test_run) as [-> | Hsnap]; [done | ].
      rewrite init_supplied in Hnew by done. eauto.
    - destruct (getTestRunByUri polarion log uri) as [snapshot | ] eqn:Hfetch.
      + rewrite (init_fetched _ _ _ _ _ _ Huri Hfetch) in Hnew. eauto.
      + pose proof (init_fetch_fails _ _ polarion_test_run _ fs Huri Hfetch) as Hfail.
        by rewrite Hnew in Hfail. }
  destruct (build_ok_state _ _ Hrun) as (values & Hraw & Henv & Hattrs).
  destruct Henv as (_ & _ & _ & Hraw' & Hbase').
  simpl in Hraw, Hraw', Hbase'. unfold deepcopy in Hbase'.
  exists values. rewrite Hraw', Hbase', Hraw. repeat split.
  intros key v Hkey Hv. by rewrite (Hattrs key Hkey), Hv.
Qed.

#[local] Instance same_calls_preorder : PreOrder same_calls.
Proof. split; [by intros w | intros w1 w2 w3; unfold same_calls; congruence]. Qed.

Lemma reload_calls w uri :
  attrs (self w) !! "uri" = Some uri →
  calls (_reloadFromPolarion w).2 = calls w ++ [GetTestRunByUri uri].
Proof.
  intros Huri.
  destruct (getTestRunByUri (_polarion (self w)) (calls w) uri)
    as [snapshot | ] eqn:Hfetch.
  - rewrite (reload_fetched _ _ _ Huri Hfetch).
    match goal with |- calls (?c ?w1).2 = _ =>
      assert (sat same_calls (λ _, True) c) as Hsat; [ | by destruct (Hsat w1) as [-> _] ]
    end.
    apply (sat_bind _ _).
    + eapply sat_weaken; [ | by apply (build_sat (λ _, True))]. by intros w1 w2 [? _].
    + intros _. apply (sat_bind _ _); [by apply (sat_get_self _ _) | ].
      intros t. by apply sat_modify_self.
  - by rewrite (reload_fetch_fails _ _ Huri Hfetch).
Qed.


End Rebuilt.

(** ** save *)

Section Save.
Context `{Imports}.

(** C1. A mirror that the constructor has just returned has nothing to save:
    the payload computed by [save] is empty, and [save] returns with the state
    unchanged, so no update request is sent and no reload takes place. *)
Theorem fresh_mirror_saves_nothing (polarion : Polarion) (uri polarion_test_run : Val)
    (log : list Call) (fs : gmap string string) (w : World) :
  Testrun_new polarion uri polarion_test_run log fs = (Ok tt, w) →
  staged w = (Ok ∅, w) ∧ save w = (Ok tt, w).
Proof.
  intros Hnew.
  destruct (fresh_state _ _ _ _ _ _ Hnew) as (values & Hraw & Hbase & Hattrs).
  assert (staged w = (Ok ∅, w)) as Hstaged.
  { rewrite (staged_run w values Hraw). apply stage_loop_equal.
    intros key Hin Hkey.
    destruct (values_get_elem_of values key Hin) as [v Hv].
    exists v, v. rewrite Hbase. repeat split.
    - by apply Hattrs.
    - by apply getattr_obj.
    - apply py_eq_refl. }
  split; [done | ].
  unfold save. by rewrite (bind_ok _ _ _ _ _ Hstaged).
Qed.


End Save.

Lemma fresh_mirror_saves_nothing_witness :
  @save demo_imports (demo_world demo_polarion) = (Ok tt, demo_world demo_polarion).
Proof.
  refine (proj2 (fresh_mirror_saves_nothing (H := demo_imports) demo_polarion VNone
                   (demo_run "A" false) [] ∅ (demo_world demo_polarion) _)).
  vm_compute. reflexivity.
Defined.


(** ** addTestcase: the parameter list *)

Lemma parameters_dict_keys (test_parameters : list TestParameter) (n : string) :
  is_Some (parameters_dict test_parameters !! n) ↔ n ∈ tp_name <$> test_parameters.
Proof.
  unfold parameters_dict.
  assert (∀ d : gmap string Val,
            is_Some (foldl (λ d p, <[tp_name p := tp_value p]> d) d test_parameters !! n)
            ↔ is_Some (d !! n) ∨ n ∈ tp_name <$> test_parameters) as Hgen.
  { induction test_parameters as [ | p ps IH]; intros d; simpl.
    - rewrite elem_of_nil. tauto.
    - rewrite IH, elem_of_cons, lookup_insert_is_Some.
      destruct (decide (tp_name p = n)); intuition congruence. }
  rewrite Hgen, lookup_empty. split; [intros [[? [=]] | ?]; done | by right].
Qed.



(** With the literal key unbound, the first supplied name raises. *)
Lemma parameters_loop_raises d names acc w :
  d !! "test_case_parameter_name" = None →
  (∃ n, n ∈ names ∧ is_Some (d !! n)) →
  fold_each names (add_parameter d) acc w
  = (Raise (KeyError "test_case_parameter_name"), w).
Proof.
  intros Hliteral. revert acc.
  induction names as [ | n names IH]; intros acc (m & Hin & Hm); cbn [fold_each].
  - by apply elem_of_nil in Hin.
  - destruct (decide (is_Some (d !! n))) as [Hn | Hn].
    + apply bind_raise. unfold add_parameter.
      by rewrite bool_decide_eq_true_2, Hliteral.
    + erewrite bind_ok.
      2:{ unfold add_parameter. by rewrite bool_decide_eq_false_2. }
      apply IH. exists m. split; [ | done].
      apply elem_of_cons in Hin as [-> | Hin]; done.
Qed.

(** ** Operations that change the remote run, and queries *)

#[local] Instance only_queried_preorder : PreOrder only_queried.
Proof.
  split.
  - intros w. repeat split. exists []. by rewrite app_nil_r.
  - intros w1 w2 w3 (Hs1 & Hf1 & l1 & Hc1 & Hq1) (Hs2 & Hf2 & l2 & Hc2 & Hq2).
    repeat split; [congruence | congruence | ].
    exists (l1 ++ l2). split; [ | by apply Forall_app].
    by rewrite Hc2, Hc1, app_assoc.
Qed.

Lemma sat_remote {A} (R : relation World) (E : Exn → Prop) c
    (answer : Polarion → list Call → option A) :
  (∀ w, R w (sent c w)) → E Fault → sat R E (remote c answer).
Proof.
  intros HR HE w. unfold remote.
  destruct (answer (_polarion (self w)) (calls w)); simpl; split; try done.
  by intros e [= <-].
Qed.

Section Operations.
Context `{Imports}.

(** C10. [addTestcase] reads the supplied values under the literal key
    ['test_case_parameter_name']: when a parameter name of the test case is
    among the supplied names and the literal is not, the call raises a
    [KeyError] once the parameter names have been fetched; no test record is
    sent and the instance is untouched. *)
Theorem addTestcase_literal_key (w : World) (workitem : Workitem)
    (test_parameters : list TestParameter) (names : list string) :
  getTestCaseParameterNames (_polarion (self w)) (calls w) (w_uri workitem) = Some names →
  (∃ n, n ∈ names ∧ n ∈ tp_name <$> test_parameters) →
  "test_case_parameter_name" ∉ tp_name <$> test_parameters →
  addTestcase workitem test_parameters w
  = (Raise (KeyError "test_case_parameter_name"),
     sent (GetTestCaseParameterNames (w_uri workitem)) w).
Proof.
  intros Hnames (n & Hn & Hsupplied) Hliteral. unfold addTestcase.
  erewrite bind_ok; [ | by apply remote_ok].
  apply bind_raise. apply parameters_loop_raises.
  - apply eq_None_not_Some. by rewrite (parameters_dict_keys test_parameters).
  - exists n. split; [done | ]. by apply (parameters_dict_keys test_parameters).
Qed.


End Operations.

Lemma addTestcase_literal_key_witness :
  @addTestcase demo_imports (mkWorkitem "wi%3") [mkTestParameter "p1" (VInt 1)]
    (demo_world demo_polarion)
  = (Raise (KeyError "test_case_parameter_name"),
     sent (GetTestCaseParameterNames "wi%3") (demo_world demo_polarion)).
Proof.
  refine (addTestcase_literal_key (H := demo_imports) (demo_world demo_polarion)
            (mkWorkitem "wi%3") [mkTestParameter "p1" (VInt 1)] ["p1"; "p2"] _ _ _).
  - vm_compute. reflexivity.
  - exists "p1". split; by apply elem_of_cons; left.
  - by intros [? | ?%elem_of_nil]%elem_of_cons.
Defined.


(** * Further properties *)

(** ** Inversion of runs *)

Lemma bind_ok_inv {A B} (c : M A) (k : A → M B) w b w' :
  bind c k w = (Ok b, w') → ∃ a w1, c w = (Ok a, w1) ∧ k a w1 = (Ok b, w').
Proof. unfold bind. destruct (c w) as [[a | e] w1]; [eauto | done]. Qed.

Lemma with_key_nil_iff id (l : list Record_) :
  with_key id l = [] ↔ id ∉ testcase_id <$> l.
Proof.
  unfold with_key. induction l as [ | r l IH].
  - split; [intros _ ?%elem_of_nil | ]; done.
  - rewrite fmap_cons, filter_cons, not_elem_of_cons.
    destruct (decide (testcase_id r = id)) as [Hr | Hr].
    + split; [done | ]. by intros [? _].
    + rewrite IH. split; [by intros ? | by intros [_ ?]].
Qed.

Lemma with_key_lookup id (l : list Record_) i r :
  l !! i = Some r → testcase_id r = id →
  with_key id l !! length (with_key id (take i l)) = Some r.
Proof.
  intros Hi Hid. unfold with_key. revert i Hi.
  induction l as [ | a l IH]; intros [ | i] Hi; simplify_eq/=.
  - by rewrite filter_cons, decide_True.
  - rewrite !filter_cons. destruct (decide (testcase_id a = testcase_id r)); simpl;
      by apply IH.
Qed.

Section IndexInvariant.
Context `{Imports}.

Lemma mirrors_index (rs : list Val) i r : mirrors rs !! i = Some r → _index r = i.
Proof.
  unfold mirrors. rewrite list_lookup_imap.
  destruct (rs !! i); simpl; [ | done]. by intros [= <-].
Qed.

Lemma records_part_indexed w w' :
  records (self w) = [] → _record_dict (self w) = ∅ →
  records_part w = (Ok tt, w') → indexed (self w').
Proof.
  intros Hrs Hdict. unfold records_part. run.
  assert (indexed (self w)) as Hempty.
  { split; [by rewrite Hrs | ]. intros id. by rewrite Hrs, Hdict. }
  destruct (_records (self w)) as [recs | ]; [ | done].
  assert ((let* test_record := lift (getattr recs "TestRecord") in
           let* rs := lift (py_iter test_record) in
           for_each (enumerate rs) (λ '(index, r),
             modify_self (λ t, add_record t (Record__init__ r index)))) w
          = (Ok tt, w') → indexed (self w')) as Hloop.
  { destruct (getattr recs "TestRecord") as [test_record | e]; run; [ | done].
    destruct (py_iter test_record) as [rs | e]; run; [ | done].
    rewrite records_loop, enumerate_mirrors. intros [= <-]. simpl.
    destruct (add_records_frame (mirrors rs) (self w)) as (_ & _ & _ & _ & _ & Hrecords).
    rewrite Hrs in Hrecords. simpl in Hrecords. split.
    - intros i r. rewrite Hrecords. apply mirrors_index.
    - intros id. by rewrite add_records_dict, Hdict, lookup_empty, Hrecords. }
  destruct recs; try exact Hloop. run. by intros [= <-].
Qed.

Lemma build_indexed w w' :
  _buildWorkitemFromPolarion w = (Ok tt, w') → indexed (self w').
Proof.
  intros Hrun.
  destruct (build_ok_resolvable w w' Hrun) as (values & u & Hraw & Hu & Hfalse).
  rewrite (build_resolved w values u Hraw Hu Hfalse) in Hrun.
  by apply records_part_indexed in Hrun.
Qed.

(** A reload that returns fetched a snapshot, rebuilt from it and took it as
    the baseline. *)
Lemma reload_ok_inv w w' :
  _reloadFromPolarion w = (Ok tt, w') →
  ∃ uri snapshot w2,
    attrs (self w) !! "uri" = Some uri
    ∧ getTestRunByUri (_polarion (self w)) (calls w) uri = Some snapshot
    ∧ _buildWorkitemFromPolarion
        (mkWorld (set_polarion_test_run snapshot (self w))
           (calls w ++ [GetTestRunByUri uri]) (files w)) = (Ok tt, w2)
    ∧ w' = mkWorld (set_original_polarion_test_run
                      (deepcopy (_polarion_test_run (self w2))) (self w2))
             (calls w2) (files w2).
Proof.
  intros Hrun.
  destruct (attrs (self w) !! "uri") as [uri | ] eqn:Huri.
  2:{ unfold _reloadFromPolarion, self_attr in Hrun. revert Hrun. run.
      rewrite Huri. by run. }
  destruct (getTestRunByUri (_polarion (self w)) (calls w) uri)
    as [snapshot | ] eqn:Hfetch.
  2:{ by rewrite (reload_fetch_fails _ _ Huri Hfetch) in Hrun. }
  rewrite (reload_fetched _ _ _ Huri Hfetch) in Hrun.
  apply bind_ok_inv in Hrun as ([] & w2 & Hbuild & Hrest).
  exists uri, snapshot, w2. repeat split; try done.
  revert Hrest. run. by intros [= <-].
Qed.

Lemma constructed_indexed polarion uri polarion_test_run log fs w' :
  Testrun_new polarion uri polarion_test_run log fs = (Ok tt, w') → indexed (self w').
Proof.
  intros Hnew.
  destruct (is_none_dec uri) as [-> | Huri].
  - destruct (is_none_dec polarion_test_run) as [-> | Hsnap]; [done | ].
    rewrite init_supplied in Hnew by done. by apply build_indexed in Hnew.
  - destruct (getTestRunByUri polarion log uri) as [snapshot | ] eqn:Hfetch.
    + rewrite (init_fetched _ _ _ _ _ _ Huri Hfetch) in Hnew.
      by apply build_indexed in Hnew.
    + pose proof (init_fetch_fails _ _ polarion_test_run _ fs Huri Hfetch) as Hfail.
      by rewrite Hnew in Hfail.
Qed.

(** X1. The constructor and every reload that returns leave the index
    invariant: each mirror of [records] carries its own position, and
    [_record_dict] holds exactly the keys that have a mirror, each with its
    mirrors in the order of [records]. *)
Theorem index_invariant (w' : World) :
  (∀ polarion uri polarion_test_run log fs,
     Testrun_new polarion uri polarion_test_run log fs = (Ok tt, w') →
     indexed (self w'))
  ∧ (∀ w, _reloadFromPolarion w = (Ok tt, w') → indexed (self w')).
Proof.
  split.
  - intros polarion uri polarion_test_run log fs. apply constructed_indexed.
  - intros w Hrun.
    destruct (reload_ok_inv w w' Hrun) as (uri & snapshot & w2 & _ & _ & Hbuild & ->).
    by apply build_indexed in Hbuild.
Qed.

End IndexInvariant.

Lemma demo_world_indexed : indexed (self (demo_world demo_polarion)).
Proof.
  refine (constructed_indexed (H := demo_imports) demo_polarion VNone
            (demo_run "A" false) [] ∅ (demo_world demo_polarion) _).
  vm_compute. reflexivity.
Qed.

Lemma index_invariant_witness : indexed (self (demo_world demo_polarion)).
Proof.
  refine (proj1 (index_invariant (H := demo_imports) (demo_world demo_polarion))
            demo_polarion VNone (demo_run "A" false) [] ∅ _).
  vm_compute. reflexivity.
Defined.

(** X2. On an indexed mirror [hasTestCase(k)] is true exactly when some
    sub-record of [records] has business key [k]; it leaves the state alone. *)
Theorem hasTestCase_iff_key_occurs (id : string) (w : World) :
  indexed (self w) →
  hasTestCase id w
  = (Ok (bool_decide (id ∈ testcase_id <$> records (self w))), w).
Proof.
  intros [_ Hdict]. rewrite hasTestCase_run, Hdict. f_equal. f_equal.
  apply bool_decide_ext. case_decide as Hnil.
  - apply with_key_nil_iff in Hnil. split; [by intros [? ?] | done].
  - split; [intros _ | by eauto].
    destruct (decide (id ∈ testcase_id <$> records (self w))); [done | ].
    by apply with_key_nil_iff in n.
Qed.

Lemma hasTestCase_iff_key_occurs_witness :
  hasTestCase "TC2" (demo_world demo_polarion)
  = (Ok (bool_decide ("TC2" ∈ testcase_id <$> records (self (demo_world demo_polarion)))),
     demo_world demo_polarion).
Proof.
  exact (hasTestCase_iff_key_occurs "TC2" (demo_world demo_polarion) demo_world_indexed).
Defined.

(** [getTestCase] for a non-negative iteration, as one expression. *)
Lemma getTestCase_run (id : string) (iteration : Z) (w : World) :
  (0 ≤ iteration)%Z →
  getTestCase id iteration w
  = (match _record_dict (self w) !! id with
     | None => Ok None
     | Some l => match l !! Z.to_nat iteration with
                 | Some r => Ok (Some r)
                 | None => Raise IndexError
                 end
     end, w).
Proof.
  intros Hpos. unfold getTestCase. rewrite bool_decide_eq_false_2 by lia.
  rewrite (bind_ok _ _ _ _ _ (hasTestCase_run id w)).
  destruct (_record_dict (self w) !! id) as [l | ] eqn:Hl.
  - rewrite bool_decide_eq_true_2 by eauto. run. rewrite Hl.
    by destruct (l !! Z.to_nat iteration).
  - rewrite bool_decide_eq_false_2; [done | ]. by intros [? ?].
Qed.

(** X3. On an indexed mirror every sub-record can be looked up: the mirror
    at position [i] of [records] is returned by [getTestCase] for its key at
    the iteration that counts the earlier mirrors of the same key.
    Conversely a mirror that [getTestCase(k, i)] returns has key [k] and sits
    in [records] at its own index; the lookup leaves the state alone. *)
Theorem lookup_round_trip (w : World) :
  indexed (self w) →
  (∀ i r, records (self w) !! i = Some r →
     getTestCase (testcase_id r)
       (Z.of_nat (length (with_key (testcase_id r) (take i (records (self w)))))) w
     = (Ok (Some r), w))
  ∧ (∀ id iteration r w',
       getTestCase id iteration w = (Ok (Some r), w') →
       w' = w ∧ testcase_id r = id ∧ records (self w) !! _index r = Some r).
Proof.
  intros [Hpos Hdict]. split.
  - intros i r Hi. rewrite getTestCase_run by lia. rewrite Hdict, Nat2Z.id.
    pose proof (with_key_lookup (testcase_id r) _ i r Hi eq_refl) as Hlookup.
    rewrite decide_False; [by rewrite Hlookup | ].
    intros Hnil. by rewrite Hnil in Hlookup.
  - intros id iteration r w' Hrun.
    destruct (decide (iteration < 0)%Z) as [Hneg | Hge].
    { unfold getTestCase in Hrun. by rewrite bool_decide_eq_true_2 in Hrun. }
    rewrite getTestCase_run in Hrun by lia. rewrite Hdict in Hrun.
    case_decide; [done | ].
    destruct (with_key id (records (self w)) !! Z.to_nat iteration) as [r' | ] eqn:Hr;
      [ | done].
    injection Hrun as -> <-. split; [done | ].
    apply list_elem_of_lookup_2 in Hr. unfold with_key in Hr.
    apply list_elem_of_filter in Hr as [Hkey Hin]. split; [done | ].
    apply list_elem_of_lookup in Hin as [j Hj]. by rewrite (Hpos j r Hj).
Qed.

Lemma lookup_round_trip_witness :
  getTestCase "TC1" 1 (demo_world demo_polarion)
  = (Ok (Some (mkRecord (raw_record "TC1") 2 "TC1")), demo_world demo_polarion).
Proof.
  destruct (lookup_round_trip (demo_world demo_polarion) demo_world_indexed)
    as [Hfound _].
  refine (Hfound 2 (mkRecord (raw_record "TC1") 2 "TC1") _).
  vm_compute. reflexivity.
Defined.

(** ** The payload of [save] in general *)

Lemma stage_loop_exact values acc w :
  (∀ key, key ∈ values.*1 → key ≠ "records" →
     is_Some (attrs (self w) !! key)
     ∧ ∃ p, getattr (_original_polarion_test_run (self w)) key = Ok p) →
  ∃ d, fold_each values stage_key acc w = (Ok d, w)
       ∧ ∀ key, d !! key
                = if bool_decide (key ∈ values.*1) && bool_decide (key ≠ "records")
                     && changed (self w) key
                  then attrs (self w) !! key else acc !! key.
Proof.
  revert acc. induction values as [ | [k x] values IH]; intros acc Hall;
    cbn [fold_each]; rewrite ?fmap_cons; cbn [fst].
  { exists acc. split; [done | ]. intros key.
    rewrite bool_decide_eq_false_2; [done | ]. by intros ?%elem_of_nil. }
  rewrite fmap_cons in Hall. cbn [fst] in Hall.
  assert (∀ key, key ∈ values.*1 → key ≠ "records" →
            is_Some (attrs (self w) !! key)
            ∧ ∃ p, getattr (_original_polarion_test_run (self w)) key = Ok p) as Hrest.
  { intros key Hin. apply Hall. by apply elem_of_cons; right. }
  destruct (decide (k = "records")) as [Hk | Hk].
  - rewrite (bind_ok _ _ _ _ _ (stage_key_skip acc (k, x) w Hk)).
    destruct (IH acc Hrest) as (d & Hrun & Hd). exists d. split; [done | ].
    intros key. rewrite Hd. subst k.
    destruct (decide (key = "records")) as [-> | Hkey].
    + rewrite (bool_decide_eq_false_2 ("records" ≠ "records")) by (by intros ?).
      by rewrite !andb_false_r.
    + assert (bool_decide (key ∈ "records" :: values.*1)
              = bool_decide (key ∈ values.*1)) as ->; [ | done].
      apply bool_decide_ext. rewrite elem_of_cons. by split; [intros [? | ?] | right].
  - destruct (Hall k) as ([c Hc] & p & Hp); [by apply elem_of_cons; left | done | ].
    rewrite (bind_ok _ _ _ _ _ (stage_key_run acc (k, x) w c p Hk Hc Hp)).
    cbn [fst].
    destruct (IH (if py_ne c p then <[k := c]> acc else acc) Hrest) as (d & Hrun & Hd).
    exists d. split; [done | ]. intros key. rewrite Hd.
    destruct (decide (key = k)) as [-> | Hkey].
    + rewrite (bool_decide_eq_true_2 (k ∈ k :: values.*1)) by by apply elem_of_cons; left.
      rewrite (bool_decide_eq_true_2 (k ≠ "records")) by done.
      unfold changed. rewrite Hc, Hp. destruct (py_ne c p).
      * rewrite lookup_insert_eq. by destruct (bool_decide (k ∈ values.*1)).
      * by rewrite !andb_false_r.
    + assert (bool_decide (key ∈ k :: values.*1) = bool_decide (key ∈ values.*1)) as ->.
      { apply bool_decide_ext. rewrite elem_of_cons. by split; [intros [? | ?] | right]. }
      destruct (py_ne c p); [by rewrite lookup_insert_ne | done].
Qed.

(** Computing the payload only reads the state. *)
Lemma staged_state w : (staged w).2 = w.
Proof.
  assert (sat eq (λ _, True) staged) as Hsat; [ | by destruct (Hsat w) as [<- _]].
  unfold staged. apply (sat_bind _ _); [by apply (sat_get_self _ _) | ]. intros t.
  apply (sat_bind _ _); [by apply (sat_lift _ _) | ]. intros items.
  apply (sat_fold_each _ _). intros acc [attr value].
  apply (sat_fold_each _ _). intros acc' kv. unfold stage_key.
  case_bool_decide; [by apply (sat_ret _ _) | ].
  apply (sat_bind _ _); [by apply (sat_self_attr _ _) | ]. intros current_value.
  apply (sat_bind _ _); [by apply (sat_get_self _ _) | ]. intros t'.
  apply (sat_bind _ _); [by apply (sat_lift _ _) | ]. intros prev_value.
  destruct (py_ne current_value prev_value); by apply (sat_ret _ _).
Qed.

Section Payload.
Context `{Imports}.

(** X4. When every key of the raw snapshot (but [records]) can be read on
    the mirror and on the baseline, the payload of [save] holds exactly the
    keys whose current value differs from the baseline, each with its current
    value; [records] is never staged.  With an empty payload [save] returns
    without touching the state; otherwise it sends one update with the
    payload and the mirror's [uri], then reloads. *)
Theorem save_stages_exactly_the_changes (w : World) (values : list (string * Val)) :
  _polarion_test_run (self w) = VObj values →
  (∀ key, key ∈ values.*1 → key ≠ "records" →
     is_Some (attrs (self w) !! key)
     ∧ ∃ p, getattr (_original_polarion_test_run (self w)) key = Ok p) →
  ∃ d, staged w = (Ok d, w)
       ∧ (∀ key c, d !! key = Some c
                   ↔ key ∈ values.*1 ∧ key ≠ "records"
                     ∧ attrs (self w) !! key = Some c ∧ changed (self w) key = true)
       ∧ (d = ∅ → save w = (Ok tt, w))
       ∧ (d ≠ ∅ → ∀ u, attrs (self w) !! "uri" = Some u →
            accepts (_polarion (self w)) (calls w) (UpdateTestRun (<["uri" := u]> d)) = true →
            save w = _reloadFromPolarion (sent (UpdateTestRun (<["uri" := u]> d)) w)).
Proof.
  intros Hraw Hall.
  destruct (stage_loop_exact values ∅ w Hall) as (d & Hrun & Hd).
  rewrite <- (staged_run w values Hraw) in Hrun.
  exists d. split; [done | ]. split; [ | split].
  - intros key c. rewrite Hd, lookup_empty.
    destruct (bool_decide (key ∈ values.*1)) eqn:Hin; simpl.
    2:{ apply bool_decide_eq_false in Hin. split; [done | by intros [? _]]. }
    apply bool_decide_eq_true in Hin.
    destruct (bool_decide (key ≠ "records")) eqn:Hkey; simpl.
    2:{ apply bool_decide_eq_false in Hkey. split; [done | by intros (_ & ? & _)]. }
    apply bool_decide_eq_true in Hkey.
    destruct (changed (self w) key).
    + split; [by intros -> | by intros (_ & _ & ? & _)].
    + split; [done | by intros (_ & _ & _ & ?)].
  - intros ->. unfold save. rewrite (bind_ok _ _ _ _ _ Hrun).
    by rewrite bool_decide_eq_false_2 by (rewrite map_size_empty; lia).
  - intros Hne u Huri Haccept. unfold save. rewrite (bind_ok _ _ _ _ _ Hrun).
    rewrite bool_decide_eq_true_2.
    2:{ apply map_size_non_empty_iff in Hne. lia. }
    rewrite (bind_ok _ _ _ _ _ (self_attr_ok _ _ _ Huri)).
    by rewrite (bind_ok _ _ _ _ _ (remote__accepted _ _ Haccept)).
Qed.

End Payload.

Lemma edited_world_readable (key : string) :
  key ∈ ["uri"; "title"; "unresolvable"; "attachments"; "records"] →
  key ≠ "records" →
  is_Some (attrs (self edited_world) !! key)
  ∧ ∃ p, getattr (_original_polarion_test_run (self edited_world)) key = Ok p.
Proof.
  intros Hkey Hrecords.
  repeat (apply elem_of_cons in Hkey as [-> | Hkey]); try done.
  - split; [exists (VStr "run:1") | exists (VStr "run:1")]; vm_compute; reflexivity.
  - split; [exists (VStr "B") | exists (VStr "A")]; vm_compute; reflexivity.
  - split; [exists (VBool false) | exists (VBool false)]; vm_compute; reflexivity.
  - split; [exists VNone | exists VNone]; vm_compute; reflexivity.
  - by apply elem_of_nil in Hkey.
Qed.

Lemma save_stages_exactly_the_changes_witness :
  ∃ d, staged edited_world = (Ok d, edited_world)
       ∧ d !! "title" = Some (VStr "B") ∧ d !! "uri" = None.
Proof.
  destruct (save_stages_exactly_the_changes (H := demo_imports) edited_world
              [("uri", VStr "run:1"); ("title", VStr "A");
               ("unresolvable", VBool false); ("attachments", VNone);
               ("records", VObj [("TestRecord",
                  VList [raw_record "TC1"; raw_record "TC2"; raw_record "TC1"])])])
    as (d & Hstaged & Hd & _).
  - vm_compute. reflexivity.
  - exact edited_world_readable.
  - exists d. split; [exact Hstaged | ]. split.
    + apply Hd. split; [ | split; [discriminate | split]].
      * apply elem_of_cons. right. apply elem_of_cons. left. reflexivity.
      * vm_compute. reflexivity.
      * vm_compute. reflexivity.
    + destruct (d !! "uri") as [c | ] eqn:Huri; [ | reflexivity].
      apply Hd in Huri as (_ & _ & Hc & Hchanged).
      vm_compute in Hchanged. discriminate.
Defined.

(** ** Reload, and saving after it *)

Section AfterReload.
Context `{Imports}.

Lemma reload_state w w' :
  _reloadFromPolarion w = (Ok tt, w') →
  ∃ uri values,
    attrs (self w) !! "uri" = Some uri
    ∧ getTestRunByUri (_polarion (self w)) (calls w) uri = Some (VObj values)
    ∧ _polarion_test_run (self w') = VObj values
    ∧ _original_polarion_test_run (self w') = VObj values
    ∧ ∀ key, key ≠ "records" →
        attrs (self w') !! key
        = match values_get values key with
          | Some v => Some v
          | None => attrs (self w) !! key
          end.
Proof.
  intros Hrun.
  destruct (reload_ok_inv w w' Hrun) as (uri & snapshot & w2 & Huri & Hfetch & Hbuild & ->).
  destruct (build_ok_state _ _ Hbuild) as (values & Hraw & Henv & Hattrs).
  destruct Henv as (_ & _ & _ & Hraw2 & _). simpl in Hraw, Hraw2, Hattrs.
  exists uri, values. subst snapshot. simpl. unfold deepcopy. by rewrite Hraw2.
Qed.

Lemma reload_clean w w' :
  _reloadFromPolarion w = (Ok tt, w') → staged w' = (Ok ∅, w').
Proof.
  intros Hrun.
  destruct (reload_state w w' Hrun) as (uri & values & _ & _ & Hraw & Hbase & Hattrs).
  rewrite (staged_run w' values Hraw). apply stage_loop_equal.
  intros key Hin Hkey. destruct (values_get_elem_of values key Hin) as [v Hv].
  exists v, v. rewrite Hbase. repeat split.
  - by rewrite (Hattrs key Hkey), Hv.
  - by apply getattr_obj.
  - apply py_eq_refl.
Qed.

Lemma clean_save w : staged w = (Ok ∅, w) → save w = (Ok tt, w).
Proof. intros Hstaged. unfold save. by rewrite (bind_ok _ _ _ _ _ Hstaged). Qed.

(** X5. A reload that returns replaces every flattened attribute whose key
    is in the fetched snapshot by the fetched value, so local edits of those
    keys are gone; an attribute whose key the snapshot lacks keeps its value.
    The fetched snapshot becomes both the raw snapshot and the baseline. *)
Theorem reload_overwrites_attributes (w w' : World) :
  _reloadFromPolarion w = (Ok tt, w') →
  ∃ uri values,
    attrs (self w) !! "uri" = Some uri
    ∧ getTestRunByUri (_polarion (self w)) (calls w) uri = Some (VObj values)
    ∧ _polarion_test_run (self w') = VObj values
    ∧ _original_polarion_test_run (self w') = VObj values
    ∧ (∀ key v, key ≠ "records" → values_get values key = Some v →
         attrs (self w') !! key = Some v)
    ∧ (∀ key, key ≠ "records" → values_get values key = None →
         attrs (self w') !! key = attrs (self w) !! key).
Proof.
  intros Hrun.
  destruct (reload_state w w' Hrun) as (uri & values & Huri & Hfetch & Hraw & Hbase & Hattrs).
  exists uri, values. repeat split; try done.
  - intros key v Hkey Hv. by rewrite (Hattrs key Hkey), Hv.
  - intros key Hkey Hv. by rewrite (Hattrs key Hkey), Hv.
Qed.

(** X6. After the constructor's work is done, nothing is ever left to save
    by an operation that ended in a reload: when a reload, [save],
    [deleteAttachment], [addAttachment], [updateAttachment] or [addTestcase]
    returns, a [save] that follows computes an empty payload and returns
    without sending anything.  In particular [save] twice sends at most one
    update. *)
Theorem nothing_to_save_after (w w' : World) :
  (_reloadFromPolarion w = (Ok tt, w') → save w' = (Ok tt, w'))
  ∧ (save w = (Ok tt, w') → save w' = (Ok tt, w'))
  ∧ (∀ file_name, deleteAttachment file_name w = (Ok tt, w') → save w' = (Ok tt, w'))
  ∧ (∀ file_path title,
       addAttachment file_path title w = (Ok tt, w') → save w' = (Ok tt, w'))
  ∧ (∀ file_path title,
       updateAttachment file_path title w = (Ok tt, w') → save w' = (Ok tt, w'))
  ∧ (∀ workitem test_parameters,
       addTestcase workitem test_parameters w = (Ok tt, w') → save w' = (Ok tt, w')).
Proof.
  assert (∀ w1, _reloadFromPolarion w1 = (Ok tt, w') → save w' = (Ok tt, w')) as Hreload.
  { intros w1 Hrun. apply clean_save. by apply (reload_clean w1). }
  repeat apply conj.
  - apply Hreload.
  - intros Hsave. unfold save in Hsave.
    apply bind_ok_inv in Hsave as (d & w1 & Hstaged & Hrest).
    assert (w1 = w) as -> by (by rewrite <- (staged_state w), Hstaged).
    case_bool_decide as Hsize.
    + apply bind_ok_inv in Hrest as (u & w2 & _ & Hrest).
      apply bind_ok_inv in Hrest as ([] & w3 & _ & Hrest). by apply (Hreload w3).
    + injection Hrest as <-. unfold save. rewrite (bind_ok _ _ _ _ _ Hstaged).
      by rewrite bool_decide_eq_false_2.
  - intros file_name Hop. unfold deleteAttachment in Hop.
    apply bind_ok_inv in Hop as (u & w1 & _ & Hop).
    apply bind_ok_inv in Hop as ([] & w2 & _ & Hop). by apply (Hreload w2).
  - intros file_path title Hop. unfold addAttachment in Hop.
    apply bind_ok_inv in Hop as (content & w1 & _ & Hop).
    apply bind_ok_inv in Hop as (u & w2 & _ & Hop).
    apply bind_ok_inv in Hop as ([] & w3 & _ & Hop). by apply (Hreload w3).
  - intros file_path title Hop. unfold updateAttachment in Hop.
    apply bind_ok_inv in Hop as (content & w1 & _ & Hop).
    apply bind_ok_inv in Hop as (u & w2 & _ & Hop).
    apply bind_ok_inv in Hop as ([] & w3 & _ & Hop). by apply (Hreload w3).
  - intros workitem test_parameters Hop. unfold addTestcase in Hop.
    apply bind_ok_inv in Hop as (names & w1 & _ & Hop).
    apply bind_ok_inv in Hop as (ps & w2 & _ & Hop).
    apply bind_ok_inv in Hop as (u & w3 & _ & Hop).
    apply bind_ok_inv in Hop as ([] & w4 & _ & Hop). by apply (Hreload w4).
Qed.

End AfterReload.

Lemma reload_edited_world :
  @_reloadFromPolarion demo_imports edited_world = (Ok tt, reloaded_world).
Proof. vm_compute. reflexivity. Qed.

Lemma reload_overwrites_attributes_witness :
  attrs (self reloaded_world) !! "title" = Some (VStr "A").
Proof.
  destruct (reload_overwrites_attributes (H := demo_imports) edited_world reloaded_world
              reload_edited_world)
    as (uri & values & Huri & Hfetch & _ & _ & Hset & _).
  apply Hset; [discriminate | ].
  vm_compute in Huri. injection Huri as <-.
  vm_compute in Hfetch. injection Hfetch as <-.
  vm_compute. reflexivity.
Defined.

Lemma nothing_to_save_after_witness :
  @save demo_imports reloaded_world = (Ok tt, reloaded_world).
Proof.
  destruct (nothing_to_save_after (H := demo_imports) edited_world reloaded_world)
    as (Hreload & _).
  exact (Hreload reload_edited_world).
Defined.

(** ** Failures *)

Section Failures.
Context `{Imports}.

(** X7. When the fetch by URI raises in the constructor, whatever the cause,
    the constructor raises "Cannot find test run" naming the URI; the one
    request has been sent, nothing was flattened, and the snapshot argument
    plays no part. *)
Theorem constructor_wraps_fetch_failure (polarion : Polarion)
    (uri polarion_test_run : Val) (log : list Call) (fs : gmap string string) :
  uri ≠ VNone →
  getTestRunByUri polarion log uri = None →
  Testrun_new polarion uri polarion_test_run log fs
  = (Raise (CannotFindTestRun uri),
     mkWorld (mkTestrun polarion (Comments__init__ uri ∪ ∅) VNone VNone None [] ∅)
       (log ++ [GetTestRunByUri uri]) fs).
Proof.
  intros Huri Hfetch. unfold Testrun_new, __init__. run.
  destruct uri; try done;
    (erewrite bind_try_raise;
     [ | erewrite bind_raise; [ | apply remote_raise; simpl; exact Hfetch]; done ]);
    by run.
Qed.

(** X8. A mirror whose raw snapshot is null cannot be saved: [save] raises
    an attribute error before it computes or sends anything.  This is the
    state a reload leaves when the service answers null: the reload raises
    "not retrieved", later saves raise, and lookups in the record index answer
    as before the reload. *)
Theorem save_after_lost_snapshot (w : World) (uri : Val) :
  attrs (self w) !! "uri" = Some uri →
  getTestRunByUri (_polarion (self w)) (calls w) uri = Some VNone →
  ∃ w1, _reloadFromPolarion w = (Raise NotRetrieved, w1)
        ∧ save w1 = (Raise (AttributeError "__dict__"), w1)
        ∧ calls w1 = calls w ++ [GetTestRunByUri uri]
        ∧ ∀ id iteration, (getTestCase id iteration w1).1 = (getTestCase id iteration w).1.
Proof.
  intros Huri Hfetch. eexists. split.
  { rewrite (reload_fetched _ _ _ Huri Hfetch). apply bind_raise.
    apply build_unresolved. by left. }
  split; [ | split; [done | ]].
  - unfold save, staged. by run.
  - intros id iteration. unfold getTestCase.
    case_bool_decide; [done | ].
    rewrite !(bind_ok _ _ _ _ _ (hasTestCase_run _ _)). simpl.
    case_bool_decide; [ | done]. run. simpl.
    destruct (_record_dict (self w) !! id) as [l | ]; [ | done].
    by destruct (l !! Z.to_nat iteration).
Qed.

(** X9. A request that the service refuses stops the operation before the
    reload: [deleteAttachment], [addAttachment], [updateAttachment] and
    [save] raise the service's fault with the instance untouched and no fetch
    sent.  [addAttachment] and [updateAttachment] raise before any request
    when the file cannot be read, and [addTestcase] stops at the parameter
    name query when that raises. *)
Theorem failed_request_skips_reload (w : World) (u : Val) :
  attrs (self w) !! "uri" = Some u →
  (∀ file_name,
     accepts (_polarion (self w)) (calls w) (DeleteTestRunAttachment u file_name) = false →
     deleteAttachment file_name w
     = (Raise Fault, sent (DeleteTestRunAttachment u file_name) w))
  ∧ (∀ file_path title content,
       files w !! file_path = Some content →
       accepts (_polarion (self w)) (calls w)
         (AddAttachmentToTestRun u (path_tail file_path) title content) = false →
       addAttachment file_path title w
       = (Raise Fault,
          sent (AddAttachmentToTestRun u (path_tail file_path) title content) w))
  ∧ (∀ file_path title content,
       files w !! file_path = Some content →
       accepts (_polarion (self w)) (calls w)
         (UpdateTestRunAttachment u (path_tail file_path) title content) = false →
       updateAttachment file_path title w
       = (Raise Fault,
          sent (UpdateTestRunAttachment u (path_tail file_path) title content) w))
  ∧ (∀ file_path title,
       files w !! file_path = None →
       addAttachment file_path title w = (Raise (FileNotFoundError file_path), w)
       ∧ updateAttachment file_path title w = (Raise (FileNotFoundError file_path), w))
  ∧ (∀ workitem test_parameters,
       getTestCaseParameterNames (_polarion (self w)) (calls w) (w_uri workitem) = None →
       addTestcase workitem test_parameters w
       = (Raise Fault, sent (GetTestCaseParameterNames (w_uri workitem)) w))
  ∧ (∀ d, staged w = (Ok d, w) → d ≠ ∅ →
       accepts (_polarion (self w)) (calls w) (UpdateTestRun (<["uri" := u]> d)) = false →
       save w = (Raise Fault, sent (UpdateTestRun (<["uri" := u]> d)) w)).
Proof.
  intros Huri.
  assert (∀ c, accepts (_polarion (self w)) (calls w) c = false →
               remote_ c w = (Raise Fault, sent c w)) as Hrefused.
  { intros c Hc. unfold remote_, remote. by rewrite Hc. }
  repeat apply conj.
  - intros file_name Hc. unfold deleteAttachment.
    rewrite (bind_ok _ _ _ _ _ (self_attr_ok _ _ _ Huri)).
    apply bind_raise. by apply Hrefused.
  - intros file_path title content Hfile Hc. unfold addAttachment.
    erewrite bind_ok; [ | unfold read_file; by rewrite Hfile].
    rewrite (bind_ok _ _ _ _ _ (self_attr_ok _ _ _ Huri)).
    apply bind_raise. by apply Hrefused.
  - intros file_path title content Hfile Hc. unfold updateAttachment.
    erewrite bind_ok; [ | unfold read_file; by rewrite Hfile].
    rewrite (bind_ok _ _ _ _ _ (self_attr_ok _ _ _ Huri)).
    apply bind_raise. by apply Hrefused.
  - intros file_path title Hfile. split.
    + unfold addAttachment. apply bind_raise. unfold read_file. by rewrite Hfile.
    + unfold updateAttachment. apply bind_raise. unfold read_file. by rewrite Hfile.
  - intros workitem test_parameters Hnames. unfold addTestcase.
    apply bind_raise. by apply remote_raise.
  - intros d Hstaged Hne Hc. unfold save. rewrite (bind_ok _ _ _ _ _ Hstaged).
    rewrite bool_decide_eq_true_2.
    2:{ apply map_size_non_empty_iff in Hne. lia. }
    rewrite (bind_ok _ _ _ _ _ (self_attr_ok _ _ _ Huri)).
    apply bind_raise. by apply Hrefused.
Qed.

End Failures.

Lemma constructor_wraps_fetch_failure_witness :
  (@Testrun_new demo_imports down_polarion (VStr "run:1") (demo_run "A" false) [] ∅).1
  = Raise (CannotFindTestRun (VStr "run:1")).
Proof.
  rewrite (constructor_wraps_fetch_failure (H := demo_imports) down_polarion
             (VStr "run:1") (demo_run "A" false) [] ∅); [reflexivity | discriminate | ].
  reflexivity.
Defined.

Lemma save_after_lost_snapshot_witness :
  ∃ w1, @_reloadFromPolarion demo_imports (demo_world lost_polarion)
        = (Raise NotRetrieved, w1)
        ∧ @save demo_imports w1 = (Raise (AttributeError "__dict__"), w1).
Proof.
  destruct (save_after_lost_snapshot (H := demo_imports) (demo_world lost_polarion)
              (VStr "run:1")) as (w1 & Hreload & Hsave & _).
  - vm_compute. reflexivity.
  - reflexivity.
  - exists w1. split; [exact Hreload | exact Hsave].
Defined.

Lemma failed_request_skips_reload_witness :
  @deleteAttachment demo_imports "log.txt" (demo_world down_polarion)
  = (Raise Fault,
     sent (DeleteTestRunAttachment (VStr "run:1") "log.txt") (demo_world down_polarion)).
Proof.
  destruct (failed_request_skips_reload (H := demo_imports) (demo_world down_polarion)
              (VStr "run:1")) as (Hdelete & _).
  - vm_compute. reflexivity.
  - refine (Hdelete "log.txt" _). vm_compute. reflexivity.
Defined.

(** ** Attachments *)

Lemma getAttachment_only_queries file_name w :
  only_queried w (getAttachment file_name w).2.
Proof.
  assert (sat only_queried (λ _, True) (getAttachment file_name)) as Hsat;
    [ | by destruct (Hsat w)].
  unfold getAttachment.
  apply (sat_bind _ _); [by apply (sat_self_attr _ _) | ]. intros uri.
  apply (sat_bind _ _).
  { apply sat_remote; [ | done]. intros w1. repeat split.
    exists [GetTestRunAttachment uri file_name]. split; [done | ].
    by apply Forall_singleton. }
  intros at_.
  assert (sat only_queried (λ _, True)
            (let* url := lift (getattr at_ "url") in
             remote (DownloadFromSvn url) (λ p h, downloadFromSvn p h url))) as Hget.
  { apply (sat_bind _ _); [by apply (sat_lift _ _) | ]. intros url.
    apply sat_remote; [ | done]. intros w1. repeat split.
    exists [DownloadFromSvn url]. split; [done | ]. by apply Forall_singleton. }
  destruct at_; try exact Hget. by apply (sat_raise _ _).
Qed.

(** X10. [getAttachment] asks the service for the attachment.  When the
    service knows none (null), it raises "Could not download attachment"
    naming the file, and no download is requested.  When the service returns
    one, its [url] is downloaded and the content returned.  A mirror without
    [uri] raises before any request. *)
Theorem getAttachment_outcomes (w : World) (file_name : string) :
  (attrs (self w) !! "uri" = None →
     getAttachment file_name w = (Raise (AttributeError "uri"), w))
  ∧ (∀ u, attrs (self w) !! "uri" = Some u →
       getTestRunAttachment (_polarion (self w)) (calls w) u file_name = Some VNone →
       getAttachment file_name w
       = (Raise (CouldNotDownload file_name), sent (GetTestRunAttachment u file_name) w))
  ∧ (∀ u at_ url content, attrs (self w) !! "uri" = Some u →
       getTestRunAttachment (_polarion (self w)) (calls w) u file_name = Some at_ →
       at_ ≠ VNone →
       getattr at_ "url" = Ok url →
       downloadFromSvn (_polarion (self w))
         (calls w ++ [GetTestRunAttachment u file_name]) url = Some content →
       getAttachment file_name w
       = (Ok content,
          sent (DownloadFromSvn url) (sent (GetTestRunAttachment u file_name) w))).
Proof.
  repeat apply conj.
  - intros Huri. unfold getAttachment, self_attr. run. rewrite Huri. by run.
  - intros u Huri Hat. unfold getAttachment.
    rewrite (bind_ok _ _ _ _ _ (self_attr_ok _ _ _ Huri)).
    erewrite bind_ok; [ | by apply remote_ok]. done.
  - intros u at_ url content Huri Hat Hsome Hurl Hcontent. unfold getAttachment.
    rewrite (bind_ok _ _ _ _ _ (self_attr_ok _ _ _ Huri)).
    erewrite bind_ok; [ | by apply remote_ok].
    assert ((let* url := lift (getattr at_ "url") in
             remote (DownloadFromSvn url) (λ p h, downloadFromSvn p h url))
              (sent (GetTestRunAttachment u file_name) w)
            = (Ok content,
               sent (DownloadFromSvn url) (sent (GetTestRunAttachment u file_name) w)))
      as Hget.
    { rewrite Hurl. run. by apply remote_ok. }
    by destruct at_.
Qed.

Lemma getAttachment_outcomes_witness :
  getAttachment "log.txt" (demo_world demo_polarion)
  = (Raise (CouldNotDownload "log.txt"),
     sent (GetTestRunAttachment (VStr "run:1") "log.txt") (demo_world demo_polarion))
  ∧ getAttachment "log.txt" (demo_world archive_polarion)
    = (Ok "DATA",
       sent (DownloadFromSvn (VStr "svn:log"))
         (sent (GetTestRunAttachment (VStr "run:1") "log.txt")
            (demo_world archive_polarion))).
Proof.
  split.
  - destruct (getAttachment_outcomes (demo_world demo_polarion) "log.txt")
      as (_ & Hnone & _).
    refine (Hnone (VStr "run:1") _ _); vm_compute; reflexivity.
  - destruct (getAttachment_outcomes (demo_world archive_polarion) "log.txt")
      as (_ & _ & Hfound).
    refine (Hfound (VStr "run:1") (VObj [("url", VStr "svn:log")]) (VStr "svn:log")
              "DATA" _ _ _ _ _); try discriminate; vm_compute; reflexivity.
Defined.

Section SaveAttachment.
Context `{Imports}.

(** X11. [saveAttachmentAsFile] writes nothing unless the download
    succeeded: when [getAttachment] raises, it raises the same exception and
    the files are as before.  When the download returns and the file can be
    opened, the file holds exactly the downloaded content, the instance is
    untouched, and an [addAttachment] of that file sends that content under
    the last component of the path. *)
Theorem saved_attachment_round_trip (w : World) (file_name file_path : string) :
  (∀ e w1 writable,
     getAttachment file_name w = (Raise e, w1) →
     saveAttachmentAsFile writable file_name file_path w = (Raise e, w1)
     ∧ files w1 = files w)
  ∧ (∀ content w1,
       getAttachment file_name w = (Ok content, w1) →
       saveAttachmentAsFile false file_name file_path w
       = (Raise (FileNotFoundError file_path), w1)
       ∧ files w1 = files w)
  ∧ (∀ content w1,
       getAttachment file_name w = (Ok content, w1) →
       ∃ w2, saveAttachmentAsFile true file_name file_path w = (Ok tt, w2)
             ∧ self w2 = self w
             ∧ files w2 = <[file_path := content]> (files w)
             ∧ read_file file_path w2 = (Ok content, w2)
             ∧ ∀ u title,
                 attrs (self w) !! "uri" = Some u →
                 accepts (_polarion (self w)) (calls w2)
                   (AddAttachmentToTestRun u (path_tail file_path) title content) = true →
                 addAttachment file_path title w2
                 = _reloadFromPolarion
                     (sent (AddAttachmentToTestRun u (path_tail file_path) title content)
                        w2)).
Proof.
  pose proof (getAttachment_only_queries file_name w) as (Hself & Hfiles & _).
  repeat apply conj.
  - intros e w1 writable Hget. rewrite Hget in Hfiles. split; [ | done].
    unfold saveAttachmentAsFile. by apply bind_raise.
  - intros content w1 Hget. rewrite Hget in Hfiles. split; [ | done].
    unfold saveAttachmentAsFile. by rewrite (bind_ok _ _ _ _ _ Hget).
  - intros content w1 Hget. rewrite Hget in Hself, Hfiles. simpl in Hself, Hfiles.
    eexists. split.
    { unfold saveAttachmentAsFile. by rewrite (bind_ok _ _ _ _ _ Hget). }
    simpl. split; [done | ]. split; [by rewrite Hfiles | ]. split.
    { unfold read_file. simpl. by rewrite lookup_insert_eq. }
    intros u title Huri Haccept. unfold addAttachment.
    erewrite bind_ok.
    2:{ unfold read_file. simpl. by rewrite lookup_insert_eq. }
    erewrite bind_ok.
    2:{ apply self_attr_ok. simpl. by rewrite Hself. }
    erewrite bind_ok; [done | ].
    apply remote__accepted. simpl in *. by rewrite Hself.
Qed.

End SaveAttachment.

Lemma saved_attachment_round_trip_witness :
  ∃ w2, saveAttachmentAsFile true "log.txt" "/tmp/out/log.txt"
          (demo_world archive_polarion) = (Ok tt, w2)
        ∧ files w2 = <["/tmp/out/log.txt" := "DATA"]> (files (demo_world archive_polarion)).
Proof.
  destruct (saved_attachment_round_trip (H := demo_imports) (demo_world archive_polarion)
              "log.txt" "/tmp/out/log.txt") as (_ & _ & Hsaved).
  destruct (Hsaved "DATA"
              (sent (DownloadFromSvn (VStr "svn:log"))
                 (sent (GetTestRunAttachment (VStr "run:1") "log.txt")
                    (demo_world archive_polarion))))
    as (w2 & Hrun & _ & Hfiles & _).
  - vm_compute. reflexivity.
  - exists w2. split; [exact Hrun | exact Hfiles].
Defined.

(** ** addTestcase: what is sent *)

Lemma remote_ok_inv {A} c (answer : Polarion → list Call → option A) w a w' :
  remote c answer w = (Ok a, w') →
  answer (_polarion (self w)) (calls w) = Some a ∧ w' = sent c w.
Proof.
  unfold remote. destruct (answer (_polarion (self w)) (calls w)); [ | done].
  by intros [= -> <-].
Qed.

Lemma self_attr_ok_inv name w v w' :
  self_attr name w = (Ok v, w') → attrs (self w) !! name = Some v ∧ w' = w.
Proof.
  unfold self_attr. run. destruct (attrs (self w) !! name); run; [ | done].
  by intros [= -> <-].
Qed.

(** Whenever the loop over the parameter names completes, it has appended one
    parameter per name, in order; a name that was not supplied is
    "not specified", a supplied one carries the value bound to the literal
    key. *)
Lemma parameters_loop_inv d names acc w ps w' :
  fold_each names (add_parameter d) acc w = (Ok ps, w') →
  w' = w
  ∧ ∃ tail, ps = acc ++ tail
      ∧ p_name <$> tail = names
      ∧ ∀ p, p ∈ tail →
          (d !! p_name p = None ∧ p_value p = VStr "not specified")
          ∨ (is_Some (d !! p_name p)
             ∧ d !! "test_case_parameter_name" = Some (p_value p)).
Proof.
  revert acc w. induction names as [ | n names IH]; intros acc w; cbn [fold_each].
  - intros [= <- <-]. split; [done | ]. exists []. rewrite app_nil_r.
    repeat split. by intros p ?%elem_of_nil.
  - intros Hrun. apply bind_ok_inv in Hrun as (acc' & w1 & Hstep & Hrest).
    destruct (IH acc' w1 Hrest) as (-> & tail & -> & Hnames & Htail).
    unfold add_parameter in Hstep.
    case_bool_decide as Hn.
    + destruct (d !! "test_case_parameter_name") as [v | ] eqn:Hv; [ | done].
      injection Hstep as <- <-. split; [done | ].
      exists (mkParameterType n v :: tail). rewrite <- app_assoc.
      repeat split; [by rewrite fmap_cons, Hnames | ].
      intros p [-> | Hp]%elem_of_cons; [by right | by apply Htail].
    + injection Hstep as <- <-. split; [done | ].
      exists (mkParameterType n (VStr "not specified") :: tail).
      rewrite <- app_assoc. repeat split; [by rewrite fmap_cons, Hnames | ].
      intros p [-> | Hp]%elem_of_cons; [ | by apply Htail].
      left. split; [ | done]. simpl. by apply eq_None_not_Some.
Qed.

Section Sent.
Context `{Imports}.

(** X12. Whenever [addTestcase] returns, it has sent, in this order, the
    query for the work item's parameter names, one test record under the
    mirror's [uri], and the fetch of the reload.  The record lists exactly the
    parameter names the service returned, in order (supplied parameters that
    the test case does not have are dropped); a name that was not supplied
    carries 'not specified', and a supplied name carries the value supplied
    under the literal name 'test_case_parameter_name'. *)
Theorem addTestcase_sends (w w' : World) (workitem : Workitem)
    (test_parameters : list TestParameter) :
  addTestcase workitem test_parameters w = (Ok tt, w') →
  ∃ names ps u,
    getTestCaseParameterNames (_polarion (self w)) (calls w) (w_uri workitem) = Some names
    ∧ attrs (self w) !! "uri" = Some u
    ∧ calls w' = calls w ++ [GetTestCaseParameterNames (w_uri workitem);
                             AddTestRecordToTestRun u (new_test_record workitem ps);
                             GetTestRunByUri u]
    ∧ p_name <$> ps = names
    ∧ ∀ p, p ∈ ps →
        (p_value p = VStr "not specified"
         ∧ p_name p ∉ (tp_name <$> test_parameters))
        ∨ (parameters_dict test_parameters !! "test_case_parameter_name"
           = Some (p_value p)
           ∧ p_name p ∈ (tp_name <$> test_parameters)).
Proof.
  intros Hop. unfold addTestcase in Hop.
  apply bind_ok_inv in Hop as (names & w1 & Hnames & Hop).
  apply remote_ok_inv in Hnames as [Hnames ->].
  apply bind_ok_inv in Hop as (ps & w2 & Hloop & Hop).
  apply parameters_loop_inv in Hloop as (-> & tail & -> & Htail & Hvalues).
  apply bind_ok_inv in Hop as (u & w3 & Huri & Hop).
  apply self_attr_ok_inv in Huri as [Huri ->].
  apply bind_ok_inv in Hop as ([] & w4 & Hsend & Hop).
  unfold remote_ in Hsend. apply remote_ok_inv in Hsend as [_ ->].
  exists names, tail, u. repeat split; try done.
  - match type of Hop with
    | _reloadFromPolarion ?w4 = _ => pose proof (reload_calls w4 u Huri) as Hcalls
    end.
    rewrite Hop in Hcalls. simpl in Hcalls. rewrite Hcalls. by rewrite <- !app_assoc.
  - intros p Hp. destruct (Hvalues p Hp) as [[Hnone Hvalue] | [Hsome Hvalue]].
    + left. split; [done | ]. intros Hin.
      apply (parameters_dict_keys test_parameters) in Hin as [? Hin].
      unfold parameters_dict in Hin. by rewrite Hnone in Hin.
    + right. split; [done | ]. by apply (parameters_dict_keys test_parameters).
Qed.

End Sent.

Lemma addTestcase_sends_witness :
  ∃ ps, calls extended_world
        = calls (demo_world demo_polarion)
          ++ [GetTestCaseParameterNames "wi%3";
              AddTestRecordToTestRun (VStr "run:1")
                (new_test_record (mkWorkitem "wi%3") ps);
              GetTestRunByUri (VStr "run:1")]
        ∧ p_name <$> ps = ["p1"; "p2"].
Proof.
  destruct (addTestcase_sends (H := demo_imports) (demo_world demo_polarion)
              extended_world (mkWorkitem "wi%3") [])
    as (names & ps & u & Hnames & Huri & Hcalls & Hps & _).
  - vm_compute. reflexivity.
  - vm_compute in Hnames. injection Hnames as <-.
    vm_compute in Huri. injection Huri as <-.
    exists ps. split; [exact Hcalls | exact Hps].
Defined.

(** ** The URI and revision of the test record *)

Lemma free_of_cons c x s : free_of c (String x s) ↔ x ≠ c ∧ free_of c s.
Proof.
  unfold free_of. simpl. rewrite not_elem_of_cons.
  split; (intros [? ?]; split; [congruence | done]).
Qed.

Lemma split_free c s : free_of c s → split c s = [s].
Proof.
  induction s as [ | x s IH]; [done | ].
  intros [Hx Hs]%free_of_cons. simpl.
  rewrite bool_decide_eq_false_2 by done. by rewrite (IH Hs).
Qed.

Lemma split_at_first c a b :
  free_of c a → split c (a +:+ String c b) = a :: split c b.
Proof.
  induction a as [ | x a IH]; simpl.
  - intros _. by rewrite bool_decide_eq_true_2.
  - intros [Hx Ha]%free_of_cons.
    rewrite bool_decide_eq_false_2 by done. by rewrite (IH Ha).
Qed.

(** X13. The test record that [addTestcase] builds splits the work item's
    URI at '%': without a '%' the whole URI is the test case URI and no
    revision is set; otherwise the part before the first '%' is the test case
    URI and the part up to the next '%' is the revision, and anything after a
    second '%' is dropped. *)
Theorem test_record_uri_and_revision (ps : list ParameterType) :
  (∀ uri, free_of "%" uri →
     new_test_record (mkWorkitem uri) ps = mkTestRecordType uri None ps)
  ∧ (∀ a b, free_of "%" a → free_of "%" b →
       new_test_record (mkWorkitem (a +:+ String "%" b)) ps
       = mkTestRecordType a (Some b) ps)
  ∧ (∀ a b rest, free_of "%" a → free_of "%" b →
       new_test_record (mkWorkitem (a +:+ String "%" (b +:+ String "%" rest))) ps
       = mkTestRecordType a (Some b) ps).
Proof.
  unfold new_test_record. simpl. repeat apply conj.
  - intros uri Hfree. by rewrite split_free.
  - intros a b Ha Hb. by rewrite split_at_first, split_free.
  - intros a b rest Ha Hb. by rewrite !split_at_first.
Qed.

Lemma test_record_uri_and_revision_witness :
  new_test_record (mkWorkitem "wi%3") [] = mkTestRecordType "wi" (Some "3") [].
Proof.
  destruct (test_record_uri_and_revision []) as (_ & Hrevision & _).
  refine (Hrevision "wi" "3" _ _).
  - unfold free_of. simpl.
    intros Hin. repeat (apply elem_of_cons in Hin as [Hin | Hin]; [discriminate | ]).
    by apply elem_of_nil in Hin.
  - unfold free_of. simpl.
    intros Hin. repeat (apply elem_of_cons in Hin as [Hin | Hin]; [discriminate | ]).
    by apply elem_of_nil in Hin.
Defined.

(** ** The mirror the constructor returns *)

Section Constructed.
Context `{Imports}.

Lemma records_part_keeps_collection w w' :
  records_part w = (Ok tt, w') →
  is_Some (_records (self w)) ∧ _records (self w') = _records (self w).
Proof.
  unfold records_part. run.
  destruct (_records (self w)) as [recs | ] eqn:Hrecs; [ | done].
  assert ((let* test_record := lift (getattr recs "TestRecord") in
           let* rs := lift (py_iter test_record) in
           for_each (enumerate rs) (λ '(index, r),
             modify_self (λ t, add_record t (Record__init__ r index)))) w
          = (Ok tt, w') → _records (self w') = Some recs) as Hloop.
  { destruct (getattr recs "TestRecord") as [test_record | e]; run; [ | done].
    destruct (py_iter test_record) as [rs | e]; run; [ | done].
    rewrite records_loop, enumerate_mirrors. intros [= <-]. simpl.
    destruct (add_records_frame (mirrors rs) (self w)) as (_ & _ & _ & _ & -> & _).
    done. }
  intros Hrun. split; [by eauto | ].
  destruct recs; try (by apply Hloop). revert Hrun. run. by intros [= <-].
Qed.

(** X14. The mirror the constructor returns holds the snapshot it was given
    or fetched as raw snapshot and as baseline.  Every key of the snapshot
    but [records] is an attribute with the snapshot's value, and no other
    attribute is set beyond those of the base initialiser.  The snapshot has
    a [records] entry, which is kept aside in [_records] and is not an
    attribute.  The request log shows the fetch, when there was one. *)
Theorem constructed_mirror (polarion : Polarion) (uri polarion_test_run : Val)
    (log : list Call) (fs : gmap string string) (w : World) :
  Testrun_new polarion uri polarion_test_run log fs = (Ok tt, w) →
  ∃ values recs,
    (uri = VNone → polarion_test_run = VObj values ∧ calls w = log)
    ∧ (uri ≠ VNone →
       getTestRunByUri polarion log uri = Some (VObj values)
       ∧ calls w = log ++ [GetTestRunByUri uri])
    ∧ _polarion_test_run (self w) = VObj values
    ∧ _original_polarion_test_run (self w) = VObj values
    ∧ values_get values "records" = Some recs
    ∧ _records (self w) = Some recs
    ∧ (∀ key v, key ≠ "records" → values_get values key = Some v →
         attrs (self w) !! key = Some v)
    ∧ (∀ key, key ≠ "records" → values_get values key = None →
         attrs (self w) !! key = Comments__init__ uri !! key)
    ∧ files w = fs ∧ _polarion (self w) = polarion.
Proof.
  intros Hnew.
  assert (∃ snapshot log',
            _buildWorkitemFromPolarion (started polarion uri snapshot log' fs) = (Ok tt, w)
            ∧ (uri = VNone → polarion_test_run = snapshot ∧ log' = log)
            ∧ (uri ≠ VNone →
               getTestRunByUri polarion log uri = Some snapshot
               ∧ log' = log ++ [GetTestRunByUri uri]))
    as (snapshot & log' & Hrun & Hsupplied & Hfetched).
  { destruct (is_none_dec uri) as [-> | Huri].
    - destruct (is_none_dec polarion_test_run) as [-> | Hsnap]; [done | ].
      rewrite init_supplied in Hnew by done.
      exists polarion_test_run, log. by repeat split.
    - destruct (getTestRunByUri polarion log uri) as [snapshot | ] eqn:Hfetch.
      + rewrite (init_fetched _ _ _ _ _ _ Huri Hfetch) in Hnew.
        exists snapshot, (log ++ [GetTestRunByUri uri]). by repeat split.
      + pose proof (init_fetch_fails _ _ polarion_test_run _ fs Huri Hfetch) as Hfail.
        by rewrite Hnew in Hfail. }
  destruct (build_ok_state _ _ Hrun) as (values & Hraw & Henv & Hattrs).
  destruct Henv as (Hcalls & Hfiles & Hclient & Hraw' & Hbase').
  simpl in Hraw, Hraw', Hbase', Hcalls, Hfiles, Hclient, Hattrs.
  unfold deepcopy in Hbase'. subst snapshot.
  destruct (build_ok_resolvable _ _ Hrun) as (values' & u & Hraw2 & Hu & Hfalse).
  simpl in Hraw2. injection Hraw2 as <-.
  rewrite (build_resolved (started polarion uri (VObj values) log' fs) values u
             eq_refl Hu Hfalse) in Hrun.
  apply records_part_keeps_collection in Hrun as [[recs Hsome] Hkept].
  simpl in Hsome, Hkept. rewrite flattened__records in Hsome. simpl in Hsome.
  destruct (values_get values "records") as [recs' | ] eqn:Hrecs; [ | done].
  injection Hsome as ->.
  exists values, recs. repeat split; try done.
  - by apply Hsupplied.
  - rewrite Hcalls. by apply Hsupplied.
  - by apply Hfetched.
  - rewrite Hcalls. by apply Hfetched.
  - rewrite Hkept, flattened__records. by rewrite Hrecs.
  - intros key v Hkey Hv. by rewrite (Hattrs key Hkey), Hv.
  - intros key Hkey Hv. rewrite (Hattrs key Hkey), Hv. by rewrite (right_id_L ∅ (∪)).
Qed.

End Constructed.

Lemma constructed_mirror_witness :
  attrs (self (demo_world demo_polarion)) !! "title" = Some (VStr "A")
  ∧ attrs (self (demo_world demo_polarion)) !! "records" = None.
Proof.
  destruct (constructed_mirror (H := demo_imports) demo_polarion VNone
              (demo_run "A" false) [] ∅ (demo_world demo_polarion))
    as (values & recs & Hsupplied & _ & _ & _ & _ & _ & Hset & _).
  - vm_compute. reflexivity.
  - destruct (Hsupplied eq_refl) as [Hvalues _]. injection Hvalues as <-. split.
    + apply Hset; [discriminate | ]. vm_compute. reflexivity.
    + vm_compute. reflexivity.
Defined.

(** ** A rebuild that fails after the guard *)

Section LateFailure.
Context `{Imports}.

(** X15. When the snapshot passes the guard but its sub-record collection
    cannot be read (it has no [TestRecord] list, or that is not iterable), the
    rebuild raises after the flatten loops have run: the attributes hold the
    new snapshot's values while [records] and [_record_dict] are empty and the
    baseline is the one held before.  Run from a reload, such a failure loses
    the previous index. *)
Theorem late_rebuild_failure (w : World) (values : list (string * Val)) (u recs : Val)
    (e : Exn) :
  _polarion_test_run (self w) = VObj values →
  values_get values "unresolvable" = Some u →
  truthy u = false →
  values_get values "records" = Some recs →
  recs ≠ VNone →
  (getattr recs "TestRecord" = Raise e
   ∨ ∃ test_record, getattr recs "TestRecord" = Ok test_record
                    ∧ py_iter test_record = Raise e) →
  ∃ w', _buildWorkitemFromPolarion w = (Raise e, w')
        ∧ records (self w') = [] ∧ _record_dict (self w') = ∅
        ∧ _original_polarion_test_run (self w') = _original_polarion_test_run (self w)
        ∧ ∀ key v, key ≠ "records" → values_get values key = Some v →
            attrs (self w') !! key = Some v.
Proof.
  intros Hraw Hu Hfalse Hrecs Hsome Hfail.
  rewrite (build_resolved w values u Hraw Hu Hfalse).
  set (w1 := mkWorld (cleared (flattened values (self w))) (calls w) (files w)).
  assert (_records (self w1) = Some recs) as Hfield.
  { simpl. by rewrite flattened__records, Hrecs. }
  exists w1. split.
  - unfold records_part. run. rewrite Hfield.
    assert ((let* test_record := lift (getattr recs "TestRecord") in
             let* rs := lift (py_iter test_record) in
             for_each (enumerate rs) (λ '(index, r),
               modify_self (λ t, add_record t (Record__init__ r index)))) w1
            = (Raise e, w1)) as Hloop.
    { destruct Hfail as [-> | (test_record & -> & Hiter)]; run; [done | ].
      rewrite Hiter. by run. }
    by destruct recs.
  - simpl. repeat split.
    + destruct (build_sat (λ _, True) (λ _ _, I) w) as [(_ & _ & _ & _ & Hbase) _].
      rewrite (build_resolved w values u Hraw Hu Hfalse) in Hbase.
      assert ((records_part w1).2 = w1) as Hstate.
      { unfold records_part. run. rewrite Hfield.
        destruct Hfail as [Hget | (test_record & Hget & Hiter)];
          destruct recs; try done; rewrite Hget; run; try done;
          rewrite Hiter; by run. }
      fold w1 in Hbase. by rewrite Hstate in Hbase.
    + intros key v Hkey Hv. by rewrite flattened_attrs, Hv.
Qed.

End LateFailure.

Lemma late_rebuild_failure_witness :
  ∃ w', @_buildWorkitemFromPolarion demo_imports
          (mkWorld (set_polarion_test_run broken_run (self (demo_world broken_polarion)))
             [] ∅)
        = (Raise (AttributeError "TestRecord"), w')
        ∧ records (self w') = []
        ∧ attrs (self w') !! "title" = Some (VStr "C").
Proof.
  destruct (late_rebuild_failure (H := demo_imports)
              (mkWorld (set_polarion_test_run broken_run
                          (self (demo_world broken_polarion))) [] ∅)
              [("uri", VStr "run:1"); ("title", VStr "C"); ("unresolvable", VBool false);
               ("attachments", VNone); ("records", VObj [])]
              (VBool false) (VObj []) (AttributeError "TestRecord"))
    as (w' & Hrun & Hrecords & _ & _ & Hattrs).
  - reflexivity.
  - reflexivity.
  - reflexivity.
  - reflexivity.
  - discriminate.
  - left. reflexivity.
  - exists w'. split; [exact Hrun | ]. split; [exact Hrecords | ].
    apply Hattrs; [discriminate | reflexivity].
Defined.
